(** * Bugzilla MCP server: a shallow embedding of [bugzilla_api.py] and
    [config.py], and the properties of its tools.

    The Python code is translated function by function.  Values are the
    JSON-like fragment of Python the tools handle, exceptions are values of
    an error monad, the cache file lives in a finite map from paths to file
    contents, and every adapter call and file operation is appended to an
    event log so that round trips can be counted. *)

From Stdlib Require Import ZArith String Ascii List Bool Lia.
From stdpp Require Import base strings list gmap pretty.

Set Warnings "-register-all".

Local Open Scope string_scope.
Local Open Scope Z_scope.

(** ** Python values, exceptions and control flow *)

Module Py.

(** The values the tools build and receive: [None], booleans, integers,
    strings, lists, and dictionaries with string keys.  A dictionary keeps
    its insertion order, as a Python [dict] does.  A string is its
    UTF-8 text, byte by byte; floats do not occur in the modelled code. *)
Inductive PyValue : Type :=
  | PNone
  | PBool (b : bool)
  | PInt (n : Z)
  | PStr (s : string)
  | PList (l : list PyValue)
  | PDict (d : list (string * PyValue)).

(** An instance of a subclass of [Exception]: its class name and what
    [str(e)] gives.  Signals that derive from [BaseException] only
    ([KeyboardInterrupt], [SystemExit]) are not failures of the code and
    are outside the model. *)
Record exn : Type := Exn { exn_class : string; exn_str : string }.

(** The result of evaluating an expression. *)
Inductive result (A : Type) : Type :=
  | Ok (a : A)
  | Raise (e : exn).
Arguments Ok {A} a.
Arguments Raise {A} e.

Definition result_bind {A B} (r : result A) (k : A -> result B) : result B :=
  match r with
  | Ok a => k a
  | Raise e => Raise e
  end.

Fixpoint result_mapM {A B} (f : A -> result B) (l : list A) : result (list B) :=
  match l with
  | [] => Ok []
  | x :: l' =>
      result_bind (f x) (fun y =>
      result_bind (result_mapM f l') (fun ys => Ok (y :: ys)))
  end.

(** *** Built-in operations *)

Definition type_name (v : PyValue) : string :=
  match v with
  | PNone => "NoneType"
  | PBool _ => "bool"
  | PInt _ => "int"
  | PStr _ => "str"
  | PList _ => "list"
  | PDict _ => "dict"
  end.

Definition TypeError (msg : string) : exn := Exn "TypeError" msg.
Definition KeyError (msg : string) : exn := Exn "KeyError" msg.
Definition AttributeError (msg : string) : exn := Exn "AttributeError" msg.
Definition AssertionError : exn := Exn "AssertionError" "".
Definition FileNotFoundError (path : string) : exn :=
  Exn "FileNotFoundError"
      ("[Errno 2] No such file or directory: '" +:+ path +:+ "'").

(** [d.get(k)] on the association list of a dictionary. *)
Fixpoint dict_lookup (k : string) (d : list (string * PyValue)) : option PyValue :=
  match d with
  | [] => None
  | (k', v) :: d' => if String.eqb k k' then Some v else dict_lookup k d'
  end.

(** [d[k] = v]: an existing key keeps its position, a new key goes last. *)
Fixpoint dict_set (k : string) (v : PyValue) (d : list (string * PyValue))
  : list (string * PyValue) :=
  match d with
  | [] => [(k, v)]
  | (k', v') :: d' =>
      if String.eqb k k' then (k, v) :: d' else (k', v') :: dict_set k v d'
  end.

Definition dict_keys (d : list (string * PyValue)) : list string := map fst d.

(** [repr] of a key that has no quote or escape in it, which is the case
    of the two keys the code subscripts with, [name] and [email]. *)
Definition repr_key (k : string) : string := "'" +:+ k +:+ "'".

(** [v[k]] for a string [k]. *)
Definition subscript (v : PyValue) (k : string) : result PyValue :=
  match v with
  | PDict d =>
      match dict_lookup k d with
      | Some x => Ok x
      | None => Raise (KeyError (repr_key k))
      end
  | PStr _ => Raise (TypeError "string indices must be integers, not 'str'")
  | PList _ => Raise (TypeError "list indices must be integers or slices, not str")
  | _ => Raise (TypeError ("'" +:+ type_name v +:+ "' object is not subscriptable"))
  end.

(** [v.get(k, default)]: only a dictionary has the method. *)
Definition method_get (v : PyValue) (k : string) (default : PyValue) : result PyValue :=
  match v with
  | PDict d =>
      match dict_lookup k d with
      | Some x => Ok x
      | None => Ok default
      end
  | _ => Raise (AttributeError
                  ("'" +:+ type_name v +:+ "' object has no attribute 'get'"))
  end.

Fixpoint chars (s : string) : list PyValue :=
  match s with
  | EmptyString => []
  | String a s' => PStr (String a EmptyString) :: chars s'
  end.

(** The elements [for x in v] runs through: the items of a list, the keys
    of a dictionary, the characters of a string. *)
Definition py_iter (v : PyValue) : result (list PyValue) :=
  match v with
  | PList l => Ok l
  | PDict d => Ok (map PStr (dict_keys d))
  | PStr s => Ok (chars s)
  | _ => Raise (TypeError ("'" +:+ type_name v +:+ "' object is not iterable"))
  end.

(** [v == s] for a string literal [s]: only an equal string is equal. *)
Definition eq_str (v : PyValue) (s : string) : bool :=
  match v with
  | PStr t => String.eqb t s
  | _ => false
  end.

Fixpoint join_strs (sep : string) (l : list string) : string :=
  match l with
  | [] => ""
  | [s] => s
  | s :: l' => s +:+ sep +:+ join_strs sep l'
  end.

(** The items of [sep.join(...)] must all be strings; [i] is the index of
    the first item. *)
Fixpoint join_items (i : nat) (l : list PyValue) : result (list string) :=
  match l with
  | [] => Ok []
  | PStr s :: l' => result_bind (join_items (S i) l') (fun ss => Ok (s :: ss))
  | v :: _ =>
      Raise (TypeError ("sequence item " +:+ pretty i +:+
                        ": expected str instance, " +:+ type_name v +:+ " found"))
  end.

(** [sep.join(v)]. *)
Definition str_join (sep : string) (v : PyValue) : result PyValue :=
  match py_iter v with
  | Ok items => result_bind (join_items 0 items) (fun ss => Ok (PStr (join_strs sep ss)))
  | Raise _ => Raise (TypeError "can only join an iterable")
  end.

#[global] Instance result_ret : MRet result := @Ok.
#[global] Instance result_bind_inst : MBind result :=
  fun A B k r => result_bind r k.

(** *** The world outside the process *)

(** What the code does to the outside, in order: calls of the tracker
    adapter and operations on files. *)
Inductive event : Type :=
  | CallGetBug (bug_id : Z)
  | CallBuildQuery (query_params : PyValue)
  | CallQuery (params : PyValue)
  | CallGetProducts
  | CallGetBugFields
  | FileExists (path : string)
  | FileOpen (path mode : string)
  | FileRead (path : string)
  | FileWrite (path text : string).

(** A round trip to the tracker. *)
Definition is_adapter_call (ev : event) : bool :=
  match ev with
  | CallGetBug _ | CallBuildQuery _ | CallQuery _
  | CallGetProducts | CallGetBugFields => true
  | _ => false
  end.

(** The files of the working directory, by path, and the events so far. *)
Record world : Type := World {
  fs : gmap string string;
  log : list event
}.

(** The frame of a running function: the world, and the local variable
    [fields] of [get_search_options], which its [finally] clause reads
    after the [try] body or the handler has run. *)
Record frame : Type := Frame {
  fr_world : world;
  fr_fields : PyValue
}.

(** How a statement ends: it falls through, it executes [return v], or it
    raises. *)
Inductive outcome (A : Type) : Type :=
  | Normal (a : A)
  | Returns (v : PyValue)
  | Raises (e : exn).
Arguments Normal {A} a.
Arguments Returns {A} v.
Arguments Raises {A} e.

Definition M (A : Type) : Type := frame -> outcome A * frame.

#[global] Instance M_ret : MRet M := fun A a fr => (Normal a, fr).
#[global] Instance M_bind : MBind M := fun A B k m fr =>
  match m fr with
  | (Normal a, fr') => k a fr'
  | (Returns v, fr') => (Returns v, fr')
  | (Raises e, fr') => (Raises e, fr')
  end.

Definition raise {A} (e : exn) : M A := fun fr => (Raises e, fr).
Definition return_ {A} (v : PyValue) : M A := fun fr => (Returns v, fr).

Definition lift {A} (r : result A) : M A :=
  match r with
  | Ok a => mret a
  | Raise e => raise e
  end.

(** [try: body except Exception as e: handler e]. *)
Definition try_except {A} (body : M A) (handler : exn -> M A) : M A := fun fr =>
  match body fr with
  | (Raises e, fr') => handler e fr'
  | other => other
  end.

(** [try: body finally: final].  The [finally] clause runs however the
    body ended; when it falls through, the body's outcome stands, and when
    it returns or raises itself, that replaces the body's outcome. *)
Definition try_finally {A} (body : M A) (final : M unit) : M A := fun fr =>
  let '(o, fr1) := body fr in
  match final fr1 with
  | (Normal _, fr2) => (o, fr2)
  | (Returns v, fr2) => (Returns v, fr2)
  | (Raises e, fr2) => (Raises e, fr2)
  end.

(** [assert cond], with assertions enabled (no [-O]). *)
Definition py_assert (cond : bool) : M unit :=
  if cond then mret tt else raise AssertionError.

Definition emit (ev : event) : M unit := fun fr =>
  (Normal tt,
   Frame (World (fs (fr_world fr)) (log (fr_world fr) ++ [ev])) (fr_fields fr)).

Definition get_fs : M (gmap string string) := fun fr =>
  (Normal (fs (fr_world fr)), fr).

Definition put_file (path text : string) : M unit := fun fr =>
  (Normal tt,
   Frame (World (<[path := text]> (fs (fr_world fr))) (log (fr_world fr)))
         (fr_fields fr)).

Definition load_fields : M PyValue := fun fr => (Normal (fr_fields fr), fr).
Definition store_fields (v : PyValue) : M unit := fun fr =>
  (Normal tt, Frame (fr_world fr) v).

(** [pathlib.Path.exists(path)]. *)
Definition path_exists (path : string) : M bool :=
  emit (FileExists path) ;;
  files ← get_fs;
  mret (bool_decide (is_Some (files !! path))).

(** [with open(path, "r") as fp: fp.read()]. *)
Definition read_text (path : string) : M string :=
  emit (FileOpen path "r") ;;
  files ← get_fs;
  match files !! path with
  | None => raise (FileNotFoundError path)
  | Some text => emit (FileRead path) ;; mret text
  end.

(** [open(path, "w+")]: the file is created if absent and truncated. *)
Definition open_truncate (path : string) : M unit :=
  emit (FileOpen path "w+") ;;
  put_file path "".

(** [fp.write(v)] on a text file just opened by [open_truncate]: the
    argument must be a [str]. *)
Definition file_write (path : string) (v : PyValue) : M unit :=
  match v with
  | PStr text => emit (FileWrite path text) ;; put_file path text
  | _ => raise (TypeError ("write() argument must be str, not " +:+ type_name v))
  end.

(** A call of a function whose body is [body], in world [w]: the locals
    start unbound and are dropped at the end; falling off the end of the
    body returns [None]. *)
Definition call (body : M unit) (w : world) : result PyValue * world :=
  match body (Frame w PNone) with
  | (Normal _, fr) => (Ok PNone, fr_world fr)
  | (Returns v, fr) => (Ok v, fr_world fr)
  | (Raises e, fr) => (Raise e, fr_world fr)
  end.

End Py.

(** ** [config.py] *)

Module Config.
Import Py.

(** *** The string methods the validators use *)

(** [s.startswith(p)]. *)
Definition startswith (s p : string) : bool := String.prefix p s.

(** [s.rstrip(c)] for a one-character [c]: every trailing [c] goes. *)
Fixpoint rstrip (c : ascii) (s : string) : string :=
  match s with
  | EmptyString => EmptyString
  | String a s' =>
      match rstrip c s' with
      | EmptyString => if Ascii.eqb a c then EmptyString else String a EmptyString
      | r => String a r
      end
  end.

(** Every character of [s] is [c]. *)
Fixpoint only (c : ascii) (s : string) : bool :=
  match s with
  | EmptyString => true
  | String a s' => Ascii.eqb a c && only c s'
  end.

(** ASCII text: every byte is below 128. *)
Fixpoint is_ascii (s : string) : bool :=
  match s with
  | EmptyString => true
  | String a s' => (nat_of_ascii a <? 128)%nat && is_ascii s'
  end.

Definition upper_char (a : ascii) : ascii :=
  let n := nat_of_ascii a in
  if ((97 <=? n) && (n <=? 122))%nat then ascii_of_nat (n - 32) else a.

(** Upper case of ASCII text: [a]..[z] become [A]..[Z]. *)
Fixpoint ascii_upper (s : string) : string :=
  match s with
  | EmptyString => EmptyString
  | String a s' => String (upper_char a) (ascii_upper s')
  end.

(** What is taken as known of [str.upper], which follows Unicode: on
    ASCII text it is [ascii_upper].  On other text nothing is assumed. *)
Definition upper_on_ascii (upper : string -> string) : Prop :=
  forall s, is_ascii s = true -> upper s = ascii_upper s.

Definition ValueError (msg : string) : exn := Exn "ValueError" msg.

(** *** The validators of [BugzillaConfig] *)

(** [validate_url]: ensure the URL is properly formatted. *)
Definition validate_url (v : string) : result string :=
  if negb (startswith v "http://" || startswith v "https://") then
    Raise (ValueError "Bugzilla URL must start with http:// or https://")
  else Ok (rstrip "/" v).

(** The set literal of [validate_log_level]; a Python set has no fixed
    iteration order, the message below lists it in the order written. *)
Definition valid_levels : list string :=
  ["DEBUG"; "INFO"; "WARNING"; "ERROR"; "CRITICAL"].

Definition in_levels (s : string) : bool := existsb (String.eqb s) valid_levels.

(** [validate_port]: ensure port is in valid range. *)
Definition validate_port (v : Z) : result Z :=
  if negb ((1 <=? v) && (v <=? 65535)) then
    Raise (ValueError "Port must be between 1 and 65535")
  else Ok v.

(** *** Construction *)

(** The settings, as the class declares them. *)
Record BugzillaConfig : Type := {
  bugzilla_url : string;
  bugzilla_api_key : option string;
  bugzilla_username : option string;
  bugzilla_password : option string;
  server_host : string;
  server_port : Z;
  request_timeout : Z;
  max_retries : Z;
  log_level : string;
  debug_mode : bool
}.

(** What the environment supplies for each field: the text of the
    variable, or [None] for a variable that is not set. *)
Record source : Type := {
  src_bugzilla_url : option string;
  src_bugzilla_api_key : option string;
  src_bugzilla_username : option string;
  src_bugzilla_password : option string;
  src_server_host : option string;
  src_server_port : option string;
  src_request_timeout : option string;
  src_max_retries : option string;
  src_log_level : option string;
  src_debug_mode : option string
}.

(** Construction either builds the settings or fails with the errors of
    the fields, each under the field's name. *)
Inductive construction : Type :=
  | Built (c : BugzillaConfig)
  | ValidationError (errors : list (string * exn)).

(** One field.  The supplied text is converted to the field's type, and
    the converted value goes through the field's validator; a text that
    cannot be converted is the field's error, and the validator is not
    run.  A missing value takes the default unvalidated, and a missing
    required field ([...] as default) is an error. *)
Definition field {A} (supplied : option string) (default : option A)
    (convert : string -> result A) (validator : A -> result A) : result A :=
  match supplied, default with
  | Some text, _ => result_bind (convert text) validator
  | None, Some d => Ok d
  | None, None => Raise (Exn "MissingError" "Field required")
  end.

Definition errors_of {A} (name : string) (r : result A) : list (string * exn) :=
  match r with
  | Ok _ => []
  | Raise e => [(name, e)]
  end.

Section Library.

(** [str.upper], and the conversions of the settings library from the
    text of a variable to [int] and to [bool]. *)
Variable upper : string -> string.
Variable to_int : string -> result Z.
Variable to_bool : string -> result bool.

(** [validate_log_level]: ensure log level is valid. *)
Definition validate_log_level (v : string) : result string :=
  if negb (in_levels (upper v)) then
    Raise (ValueError ("Log level must be one of: " +:+ join_strs ", " valid_levels))
  else Ok (upper v).

(** [BugzillaConfig()]: every field is evaluated, and the settings are
    built when no field failed. *)
Definition new (src : source) : construction :=
  let url := field (src_bugzilla_url src) None Ok validate_url in
  let port := field (src_server_port src) (Some 8080) to_int validate_port in
  let timeout := field (src_request_timeout src) (Some 30) to_int Ok in
  let retries := field (src_max_retries src) (Some 3) to_int Ok in
  let level := field (src_log_level src) (Some "INFO") Ok validate_log_level in
  let debug := field (src_debug_mode src) (Some false) to_bool Ok in
  match url, port, timeout, retries, level, debug with
  | Ok u, Ok p, Ok t, Ok r, Ok l, Ok d =>
      Built {|
        bugzilla_url := u;
        bugzilla_api_key := src_bugzilla_api_key src;
        bugzilla_username := src_bugzilla_username src;
        bugzilla_password := src_bugzilla_password src;
        server_host := default "localhost" (src_server_host src);
        server_port := p;
        request_timeout := t;
        max_retries := r;
        log_level := l;
        debug_mode := d
      |}
  | _, _, _, _, _, _ =>
      ValidationError (errors_of "bugzilla_url" url ++
                       errors_of "server_port" port ++
                       errors_of "request_timeout" timeout ++
                       errors_of "max_retries" retries ++
                       errors_of "log_level" level ++
                       errors_of "debug_mode" debug)
  end.

End Library.

Definition has_api_key_auth (c : BugzillaConfig) : bool :=
  bool_decide (is_Some (bugzilla_api_key c)).

Definition has_username_password_auth (c : BugzillaConfig) : bool :=
  bool_decide (is_Some (bugzilla_username c)) &&
  bool_decide (is_Some (bugzilla_password c)).

Definition has_auth (c : BugzillaConfig) : bool :=
  has_api_key_auth c || has_username_password_auth c.

End Config.

(** ** [bugzilla_api.py] *)

Module BugzillaApi.
Import Py.

Definition BUGZILLA_CACHE : string := ".bugzilla.cache.json".

(** [os.curdir], and [os.path.join] of a directory without a trailing
    separator and a relative name. *)
Definition os_curdir : string := ".".
Definition os_path_join (dir name : string) : string := dir +:+ "/" +:+ name.

(** [pathlib.PosixPath(s)], as text: a leading [./] is dropped, which is
    all the normalisation the one path built below needs. *)
Definition PosixPath (s : string) : string :=
  match s with
  | String "." (String "/" rest) => rest
  | _ => s
  end.

(** A [Bug] of the tracker library: an object with attributes. *)
Record Bug : Type := { attrs : gmap string PyValue }.

(** [bug.name]. *)
Definition getattr (bug : Bug) (name : string) : result PyValue :=
  match attrs bug !! name with
  | Some v => Ok v
  | None => Raise (AttributeError
                     ("'Bug' object has no attribute '" +:+ name +:+ "'"))
  end.

(** The adapter [bzapi], seen from the tools: whether it is logged in, and
    what each of its methods answers or raises. *)
Record Bugzilla : Type := {
  logged_in : bool;
  getbug : Z -> result Bug;
  build_query : PyValue -> result PyValue;
  query : PyValue -> result (list Bug);
  getproducts : result PyValue;
  getbugfields : result PyValue
}.

Definition convert_bug_to_dict (bug : Bug) : result PyValue :=
  product ← getattr bug "product";
  id ← getattr bug "id";
  priority ← getattr bug "priority";
  creation_time ← getattr bug "creation_time";
  status ← getattr bug "status";
  summary ← getattr bug "summary";
  severity ← getattr bug "severity";
  cc ← getattr bug "cc";
  creator_detail ← getattr bug "creator_detail";
  email ← subscript creator_detail "email";
  platform ← getattr bug "platform";
  keywords ← getattr bug "keywords";
  keywords_joined ← str_join ";" keywords;
  component ← getattr bug "component";
  groups ← getattr bug "groups";
  groups_joined ← str_join " " groups;
  weburl ← getattr bug "weburl";
  is_confirmed ← getattr bug "is_confirmed";
  Ok (PDict [
    ("product_name", product);
    ("bug_id", id);
    ("bug_priority", priority);
    ("created", creation_time);
    ("status", status);
    ("summary", summary);
    ("severity", severity);
    ("bug_cc", cc);
    ("creator", email);
    ("platform", platform);
    ("keywords", keywords_joined);
    ("component", component);
    ("groups", groups_joined);
    ("weburl", weburl);
    ("confirmed", is_confirmed)
  ]).

(** The keyword arguments of [query_bugs]; a filter is [None] or a string. *)
Record query_args : Type := {
  product : option string;
  component : option string;
  status : option string;
  priority : option string;
  severity : option string;
  assigned_to : option string;
  creator : option string;
  limit : Z;
  offset : Z
}.

(** [query_bugs()]: the defaults of the signature. *)
Definition no_args : query_args := {|
  product := None; component := None; status := None; priority := None;
  severity := None; assigned_to := None; creator := None;
  limit := 20; offset := 0
|}.

(** [if x:] for an optional string: [None] and the empty string are false. *)
Definition truthy (x : option string) : bool :=
  match x with
  | Some s => negb (String.eqb s "")
  | None => false
  end.

(** [x or other]. *)
Definition or_ (x : option string) (other : string) : PyValue :=
  match x with
  | Some s => if truthy x then PStr s else PStr other
  | None => PStr other
  end.

(** The part of [query_bugs] that builds [query_params]. *)
Definition query_params (a : query_args) : list (string * PyValue) :=
  let q := [] in
  let q := if truthy (product a)
           then dict_set "product" (or_ (product a) "SUSEConnect") q else q in
  let q := if truthy (component a)
           then dict_set "component" (or_ (component a) "General") q else q in
  let q := if truthy (status a)
           then dict_set "status" (or_ (status a) "NEW") q else q in
  let q := if truthy (priority a)
           then dict_set "priority" (or_ (priority a) "P2 - High") q else q in
  let q := if truthy (severity a)
           then dict_set "severity" (or_ (severity a) "Medium") q else q in
  let q := if truthy (assigned_to a)
           then dict_set "assigned_to" (or_ (assigned_to a) "") q else q in
  let q := if truthy (creator a)
           then dict_set "creator" (or_ (creator a) "") q else q in
  let q := dict_set "limit" (PInt (Z.min (limit a) 20)) q in
  let q := dict_set "offset" (PInt (offset a)) q in
  q.

(** The optional filters of a call, each with the key it is sent under. *)
Definition filters (a : query_args) : list (string * option string) :=
  [("product", product a); ("component", component a); ("status", status a);
   ("priority", priority a); ("severity", severity a);
   ("assigned_to", assigned_to a); ("creator", creator a)].

(** [[x['name'] for x in v]]. *)
Definition names_of (v : PyValue) : result (list PyValue) :=
  items ← py_iter v;
  result_mapM (fun x => subscript x "name") items.

(** [[v['name'] for v in field.get('values', [])]]. *)
Definition value_names (field : PyValue) : result PyValue :=
  values ← method_get field "values" (PList []);
  names ← names_of values;
  Ok (PList names).

(** The three lists the loop over [bugfields] fills. *)
Record options : Type := {
  status_options : PyValue;
  priority_options : PyValue;
  severity_options : PyValue
}.

(** One turn of the loop [for field in bugfields]. *)
Definition scan_field (o : options) (field : PyValue) : result options :=
  n ← subscript field "name";
  if eq_str n "bug_status" then
    names ← value_names field;
    Ok {| status_options := names;
          priority_options := priority_options o;
          severity_options := severity_options o |}
  else
    n ← subscript field "name";
    if eq_str n "priority" then
      names ← value_names field;
      Ok {| status_options := status_options o;
            priority_options := names;
            severity_options := severity_options o |}
    else
      n ← subscript field "name";
      if eq_str n "bug_severity" then
        names ← value_names field;
        Ok {| status_options := status_options o;
              priority_options := priority_options o;
              severity_options := names |}
      else Ok o.

Fixpoint scan_fields (o : options) (l : list PyValue) : result options :=
  match l with
  | [] => Ok o
  | field :: l' => result_bind (scan_field o field) (fun o' => scan_fields o' l')
  end.

Definition search_tips : PyValue :=
  PDict [
    ("status", PStr "Common values: NEW, ASSIGNED, RESOLVED, VERIFIED, CLOSED");
    ("priority", PStr "Common values: P1 (highest) to P5 (lowest)");
    ("severity", PStr "Common values: blocker, critical, major, normal, minor, trivial");
    ("wildcards", PStr "Use * for wildcards in text searches");
    ("multiple_values", PStr "Separate multiple values with commas")
  ].

(** The dictionary the [try] body of [get_search_options] assigns to
    [fields]. *)
Definition assemble (product_names : list PyValue) (o : options) : PyValue :=
  PDict [
    ("products", PList product_names);
    ("statuses", status_options o);
    ("priorities", priority_options o);
    ("severities", severity_options o);
    ("search_tips", search_tips)
  ].

(** [len(v.keys())]. *)
Definition len_keys (v : PyValue) : result Z :=
  match v with
  | PDict d => Ok (Z.of_nat (length (dict_keys d)))
  | _ => Raise (AttributeError
                  ("'" +:+ type_name v +:+ "' object has no attribute 'keys'"))
  end.

Definition who_am_i : PyValue := PStr "Bugzilla MCP server".

(** What [requests.get] returns, as far as [timezone] uses it: the
    [json()] method, which gives the parsed body or raises. *)
Record Response : Type := { json : result PyValue }.

(** The f-string [f"{api_url}/rest/timezone"]. *)
Definition timezone_url (api_url : string) : string :=
  api_url +:+ "/rest/timezone".

(** [timezone], for the module-level [api_url] and a [requests.get] that
    answers or raises. *)
Definition timezone (requests_get : string -> result Response)
    (api_url : string) : result PyValue :=
  response ← requests_get (timezone_url api_url);
  json response.

Section Tools.

(** [json.loads] of the standard library, and the module's adapter. *)
Variable json_loads : string -> result PyValue.
Variable bzapi : Bugzilla.

Definition bz_getbug (bug_id : Z) : M Bug :=
  emit (CallGetBug bug_id) ;; lift (getbug bzapi bug_id).
Definition bz_build_query (q : PyValue) : M PyValue :=
  emit (CallBuildQuery q) ;; lift (build_query bzapi q).
Definition bz_query (params : PyValue) : M (list Bug) :=
  emit (CallQuery params) ;; lift (query bzapi params).
Definition bz_getproducts : M PyValue :=
  emit CallGetProducts ;; lift (getproducts bzapi).
Definition bz_getbugfields : M PyValue :=
  emit CallGetBugFields ;; lift (getbugfields bzapi).

Definition get_bug_body (bug_id : Z) : M unit :=
  py_assert (logged_in bzapi) ;;
  bug ← bz_getbug bug_id;
  d ← lift (convert_bug_to_dict bug);
  return_ d.

Definition get_bug (bug_id : Z) : world -> result PyValue * world :=
  call (get_bug_body bug_id).

Definition query_bugs_body (a : query_args) : M unit :=
  py_assert (logged_in bzapi) ;;
  let query_params := PDict (query_params a) in
  params ← bz_build_query query_params;
  try_except
    (bugs ← bz_query params;
     bug_list ← lift (result_mapM convert_bug_to_dict bugs);
     limit' ← lift (subscript query_params "limit");
     return_ (PDict [
       ("total_results", PInt (Z.of_nat (length bug_list)));
       ("offset", PInt (offset a));
       ("limit", limit');
       ("query_parameters", query_params);
       ("bugs", PList bug_list)
     ]))
    (fun e =>
     return_ (PDict [
       ("error", PStr ("Query failed: " +:+ exn_str e));
       ("query_parameters", query_params)
     ])).

Definition query_bugs (a : query_args) : world -> result PyValue * world :=
  call (query_bugs_body a).

Definition cache_path : string :=
  PosixPath (os_path_join os_curdir BUGZILLA_CACHE).

(** The [try] body of [get_search_options]. *)
Definition derive : M unit :=
  products ← bz_getproducts;
  product_names ← lift (names_of products);
  bugfields ← bz_getbugfields;
  let o := {| status_options := PList [];
              priority_options := PList [];
              severity_options := PList [] |} in
  o ← lift (items ← py_iter bugfields; scan_fields o items);
  store_fields (assemble product_names o).

(** What the [try] body assigns to [fields], or what it raises, read off
    the adapter's answers alone; [derive_spec] below relates the two. *)
Definition derived : result PyValue :=
  products ← getproducts bzapi;
  product_names ← names_of products;
  bugfields ← getbugfields bzapi;
  let o := {| status_options := PList [];
              priority_options := PList [];
              severity_options := PList [] |} in
  o ← (items ← py_iter bugfields; scan_fields o items);
  Ok (assemble product_names o).

(** The adapter calls the [try] body makes: the field list is asked for
    only once the product names are there. *)
Definition derive_calls : list event :=
  match getproducts bzapi ≫= names_of with
  | Ok _ => [CallGetProducts; CallGetBugFields]
  | Raise _ => [CallGetProducts]
  end.

(** Its [finally] clause. *)
Definition persist : M unit :=
  fields ← load_fields;
  n ← lift (len_keys fields);
  if 0 <? n then
    open_truncate cache_path ;;
    fields ← load_fields;
    file_write cache_path fields
  else mret tt.

Definition get_search_options_body : M unit :=
  py_assert (logged_in bzapi) ;;
  store_fields (PDict []) ;;
  exists_ ← path_exists cache_path;
  (if exists_ : bool then
     raw_content ← read_text cache_path;
     fields ← lift (json_loads raw_content);
     store_fields fields
   else
     try_finally
       (try_except derive
          (fun e =>
           return_ (PDict [
             ("error", PStr ("Failed to get search options: " +:+ exn_str e))
           ])))
       persist) ;;
  fields ← load_fields;
  return_ fields.

Definition get_search_options : world -> result PyValue * world :=
  call get_search_options_body.

(** The world after [n] calls of [get_search_options] in a row. *)
Fixpoint after_calls (n : nat) (w : world) : world :=
  match n with
  | O => w
  | S n' => snd (get_search_options (after_calls n' w))
  end.

End Tools.

End BugzillaApi.

(** ** Concrete trackers, bugs and files for the examples *)

Module Fixtures.
Import Py BugzillaApi.

(** The text [{"foo": 1}]; character 34 is the double quote. *)
Definition foo_text : string :=
  "{" +:+ String "034" "foo" +:+ String "034" ": 1}".

Definition JSONDecodeError (msg : string) : exn := Exn "JSONDecodeError" msg.

(** A [json.loads] that knows one document and, like the real one,
    raises on the empty text. *)
Definition loads (text : string) : result PyValue :=
  if String.eqb text foo_text then Ok (PDict [("foo", PInt 1)])
  else Raise (JSONDecodeError "Expecting value: line 1 column 1 (char 0)").

Definition named (name : string) : PyValue := PDict [("name", PStr name)].

Definition sample_bug : Bug := {| attrs := list_to_map [
  ("product", PStr "SUSEConnect");
  ("id", PInt 1234);
  ("priority", PStr "P2");
  ("creation_time", PStr "20240102T03:04:05");
  ("status", PStr "NEW");
  ("summary", PStr "Registration fails");
  ("severity", PStr "Medium");
  ("cc", PList [PStr "qa@example.org"]);
  ("creator_detail", PDict [("email", PStr "dev@example.org");
                            ("real_name", PStr "Dev")]);
  ("platform", PStr "x86-64");
  ("keywords", PList [PStr "regression"; PStr "triaged"]);
  ("component", PStr "General");
  ("groups", PList []);
  ("weburl", PStr "https://bugzilla.example.org/show_bug.cgi?id=1234");
  ("is_confirmed", PBool true)
] |}.

(** A bug whose [creator_detail] has no [email]. *)
Definition anonymous_bug : Bug :=
  {| attrs := <["creator_detail" := PDict []]> (attrs sample_bug) |}.

Definition ConnectionError : exn :=
  Exn "ConnectionError" "Max retries exceeded".

(** A tracker that answers every call. *)
Definition tracker : Bugzilla := {|
  logged_in := true;
  getbug := fun _ => Ok sample_bug;
  build_query := fun q => Ok q;
  query := fun _ => Ok [sample_bug];
  getproducts := Ok (PList [named "SUSEConnect"; named "openSUSE"]);
  getbugfields := Ok (PList [
    PDict [("name", PStr "bug_status");
           ("values", PList [named "NEW"; named "RESOLVED"])];
    PDict [("name", PStr "priority");
           ("values", PList [named "P1"; named "P2"])];
    PDict [("name", PStr "bug_severity");
           ("values", PList [named "Medium"])];
    PDict [("name", PStr "op_sys")]
  ])
|}.

(** A tracker with no product and no field. *)
Definition empty_tracker : Bugzilla := {|
  logged_in := true;
  getbug := getbug tracker;
  build_query := build_query tracker;
  query := fun _ => Ok [];
  getproducts := Ok (PList []);
  getbugfields := Ok (PList [])
|}.

(** The same tracker, not logged in. *)
Definition logged_out : Bugzilla := {|
  logged_in := false;
  getbug := getbug tracker;
  build_query := build_query tracker;
  query := query tracker;
  getproducts := getproducts tracker;
  getbugfields := getbugfields tracker
|}.

(** A tracker that cannot be reached. *)
Definition unreachable : Bugzilla := {|
  logged_in := true;
  getbug := fun _ => Raise ConnectionError;
  build_query := build_query tracker;
  query := fun _ => Raise ConnectionError;
  getproducts := Raise ConnectionError;
  getbugfields := Raise ConnectionError
|}.

(** A tracker whose query compilation rejects the parameters. *)
Definition rejecting : Bugzilla := {|
  logged_in := true;
  getbug := getbug tracker;
  build_query := fun _ => Raise (Exn "BugzillaError" "bad query");
  query := query tracker;
  getproducts := getproducts tracker;
  getbugfields := getbugfields tracker
|}.

(** A bug object without any attribute. *)
Definition blank_bug : Bug := {| attrs := ∅ |}.

(** A tracker whose page holds, after a good bug, two bugs that cannot be
    normalised, each for a reason of its own. *)
Definition flaky : Bugzilla := {|
  logged_in := true;
  getbug := fun _ => Ok anonymous_bug;
  build_query := build_query tracker;
  query := fun _ => Ok [sample_bug; anonymous_bug; blank_bug];
  getproducts := getproducts tracker;
  getbugfields := getbugfields tracker
|}.

(** A tracker whose products carry no [name]. *)
Definition nameless : Bugzilla := {|
  logged_in := true;
  getbug := getbug tracker;
  build_query := build_query tracker;
  query := query tracker;
  getproducts := Ok (PList [PDict [("id", PInt 1)]]);
  getbugfields := getbugfields tracker
|}.

(** A server that cannot be reached over HTTP. *)
Definition refusing (url : string) : result Response := Raise ConnectionError.

(** Conversions for the examples: decimal numbers, with a sign or not,
    and the words [true] and [false]; any other text is refused. *)
Fixpoint digits (acc : Z) (s : string) : option Z :=
  match s with
  | EmptyString => Some acc
  | String a s' =>
      let n := nat_of_ascii a in
      if ((48 <=? n) && (n <=? 57))%nat
      then digits (10 * acc + Z.of_nat (n - 48)) s'
      else None
  end.

Definition to_int (text : string) : result Z :=
  let refused := Raise (Exn "ValidationError" "Input should be a valid integer") in
  match text with
  | EmptyString => refused
  | String "-" rest =>
      match rest, digits 0 rest with
      | String _ _, Some n => Ok (- n)
      | _, _ => refused
      end
  | _ =>
      match digits 0 text with
      | Some n => Ok n
      | None => refused
      end
  end.

Definition to_bool (text : string) : result bool :=
  if String.eqb text "true" then Ok true
  else if String.eqb text "false" then Ok false
  else Raise (Exn "ValidationError" "Input should be a valid boolean").

(** An environment that sets the URL, the port and the log level, or
    leaves them out, and nothing else. *)
Definition env (url port level : option string) : Config.source := {|
  Config.src_bugzilla_url := url;
  Config.src_bugzilla_api_key := None;
  Config.src_bugzilla_username := None;
  Config.src_bugzilla_password := None;
  Config.src_server_host := None;
  Config.src_server_port := port;
  Config.src_request_timeout := None;
  Config.src_max_retries := None;
  Config.src_log_level := level;
  Config.src_debug_mode := None
|}.

(** No file, nothing done yet. *)
Definition fresh : world := World ∅ [].

(** A cache file with unrelated content. *)
Definition foo_cached : world := World {[ cache_path := foo_text ]} [].

End Fixtures.

(** * Properties *)

Import Py BugzillaApi.

(** ** Dictionaries *)

Lemma dict_lookup_set (k k' : string) (v : PyValue) (d : list (string * PyValue)) :
  dict_lookup k (dict_set k' v d) =
  if String.eqb k k' then Some v else dict_lookup k d.
Proof.
  induction d as [|[k0 v0] d IH]; simpl.
  - done.
  - destruct (String.eqb k' k0) eqn:E0; simpl.
    + apply String.eqb_eq in E0 as <-. by destruct (String.eqb k k').
    + rewrite IH. destruct (String.eqb k k') eqn:E; [|done].
      apply String.eqb_eq in E as ->. by rewrite E0.
Qed.

Lemma dict_lookup_set_if (k k' : string) (b : bool) (v : PyValue)
    (d : list (string * PyValue)) :
  dict_lookup k (if b then dict_set k' v d else d) =
  if b && String.eqb k k' then Some v else dict_lookup k d.
Proof. destruct b; [apply dict_lookup_set | done]. Qed.

(** ** The query parameters *)

Lemma truthy_spec (x : option string) :
  truthy x = true <-> exists s, x = Some s /\ s <> "".
Proof.
  destruct x as [s|]; simpl.
  - rewrite negb_true_iff, String.eqb_neq. split.
    + intros Hs. exists s. by split.
    + intros (s' & [= <-] & Hs). exact Hs.
  - split; [done | intros (s & Hs & _); discriminate].
Qed.

(** The keys of the assembled set, in insertion order. *)
Lemma query_params_keys (a : query_args) :
  dict_keys (query_params a) =
  (map fst (List.filter (fun p => truthy (snd p)) (filters a)) ++
   ["limit"; "offset"])%list.
Proof.
  destruct a as [p c s pr sv at_ cr l o].
  unfold query_params, filters; simpl.
  destruct (truthy p), (truthy c), (truthy s), (truthy pr), (truthy sv),
    (truthy at_), (truthy cr); reflexivity.
Qed.

Lemma query_params_limit (a : query_args) :
  dict_lookup "limit" (query_params a) = Some (PInt (Z.min (limit a) 20)).
Proof. unfold query_params. by rewrite !dict_lookup_set. Qed.

Lemma query_params_offset (a : query_args) :
  dict_lookup "offset" (query_params a) = Some (PInt (offset a)).
Proof. unfold query_params. by rewrite !dict_lookup_set. Qed.

Lemma or_value (x : option string) (other : string) :
  truthy x = true -> Some (or_ x other) = PStr <$> x.
Proof.
  destruct x as [s|]; [|discriminate].
  unfold or_. by intros ->.
Qed.

(** A filter's entry in the assembled set: the supplied string when it is
    not empty, no entry otherwise. *)
Lemma query_params_filter (a : query_args) (k : string) (x : option string) :
  In (k, x) (filters a) ->
  dict_lookup k (query_params a) = if truthy x then PStr <$> x else None.
Proof.
  unfold filters; simpl In.
  intros H; repeat (destruct H as [[= <- <-]|H]); try contradiction H;
    unfold query_params; rewrite !dict_lookup_set, !dict_lookup_set_if; simpl;
    rewrite ?andb_false_r, ?andb_true_r;
    match goal with |- context [truthy ?x] => destruct (truthy x) eqn:E end;
    try reflexivity; by apply or_value.
Qed.

(** C5.  Omission rule: each of the seven optional filters has its key in
    the assembled parameter set exactly when the caller supplied a
    non-empty value for it, and then the key carries that value; the set
    has no key besides the filters' keys, [limit] and [offset]; and a call
    without arguments assembles exactly the keys [limit] and [offset]. *)
Theorem omission_rule (a : query_args) :
  (forall k x, In (k, x) (filters a) ->
     (In k (dict_keys (query_params a)) <-> exists s, x = Some s /\ s <> "")) /\
  (forall k x s, In (k, x) (filters a) -> x = Some s -> s <> "" ->
     dict_lookup k (query_params a) = Some (PStr s)) /\
  (forall k, In k (dict_keys (query_params a)) ->
     In k ["limit"; "offset"] \/ exists x, In (k, x) (filters a) /\ truthy x = true) /\
  dict_keys (query_params no_args) = ["limit"; "offset"].
Proof.
  assert (Hkeys : forall k, In k (dict_keys (query_params a)) <->
            In k ["limit"; "offset"] \/
            exists x, In (k, x) (filters a) /\ truthy x = true).
  { intros k. rewrite query_params_keys, in_app_iff, in_map_iff.
    split.
    - intros [((k' & x) & <- & Hin)|Hin]; [|by left].
      apply filter_In in Hin as [Hin Ht]. right. by exists x.
    - intros [Hin|(x & Hin & Ht)]; [by right|].
      left. exists (k, x). split; [done|]. by apply filter_In. }
  split; [|split; [|split]].
  - intros k x Hin. rewrite <- truthy_spec, Hkeys. split.
    + intros [Hlo|(x' & Hin' & Ht)].
      * destruct a; unfold filters in Hin; simpl in Hin, Hlo.
        repeat (destruct Hin as [[= <- <-]|Hin]); try contradiction Hin;
          repeat (destruct Hlo as [Hlo|Hlo]); discriminate || contradiction.
      * destruct a; unfold filters in Hin, Hin'; simpl in Hin, Hin'.
        repeat (destruct Hin as [[= <- <-]|Hin]); try contradiction Hin;
          repeat (destruct Hin' as [[= <-]|Hin']); try contradiction Hin';
          try discriminate; exact Ht.
    + intros Ht. right. by exists x.
  - intros k x s Hin -> Hs. rewrite (query_params_filter a k (Some s) Hin).
    simpl. apply String.eqb_neq in Hs. by rewrite Hs.
  - intros k. apply Hkeys.
  - reflexivity.
Qed.

(** ** [query_bugs] *)

(** The tool, case by case, for an adapter that is logged in. *)
Lemma query_bugs_unfold (bz : Bugzilla) (a : query_args) (w : world) :
  logged_in bz = true ->
  query_bugs bz a w =
  let q := PDict (query_params a) in
  match build_query bz q with
  | Raise e => (Raise e, World (fs w) (log w ++ [CallBuildQuery q]))
  | Ok params =>
      let w' := World (fs w) (log w ++ [CallBuildQuery q; CallQuery params]) in
      match result_bind (query bz params) (result_mapM convert_bug_to_dict) with
      | Ok bug_list =>
          (Ok (PDict [
             ("total_results", PInt (Z.of_nat (length bug_list)));
             ("offset", PInt (offset a));
             ("limit", PInt (Z.min (limit a) 20));
             ("query_parameters", q);
             ("bugs", PList bug_list)
           ]), w')
      | Raise e =>
          (Ok (PDict [
             ("error", PStr ("Query failed: " +:+ exn_str e));
             ("query_parameters", q)
           ]), w')
      end
  end.
Proof.
  intros Hin. destruct w as [files evs].
  unfold query_bugs, call, query_bugs_body, bz_build_query, bz_query, try_except.
  rewrite Hin.
  unfold py_assert, emit, lift, mbind, M_bind, mret, M_ret, raise, return_; simpl.
  destruct (build_query bz _) as [params|e]; simpl; [|done].
  rewrite <- app_assoc; simpl.
  destruct (query bz params) as [bugs|e]; simpl; [|done].
  destruct (result_mapM convert_bug_to_dict bugs) as [bug_list|e]; simpl; [|done].
  unfold result_bind_inst, result_bind.
  by rewrite query_params_limit.
Qed.

(** Without a login the assertion fails before anything else happens. *)
Lemma query_bugs_logged_out (bz : Bugzilla) (a : query_args) (w : world) :
  logged_in bz = false ->
  query_bugs bz a w = (Raise AssertionError, w).
Proof.
  intros Hout. destruct w as [files evs].
  unfold query_bugs, call, query_bugs_body, py_assert. rewrite Hout.
  reflexivity.
Qed.

(** C4.  Limit clamping: whatever limit the caller passes, the assembled
    parameter set has [limit = min(limit, 20)], and so has the
    [query_parameters] entry of every response of [query_bugs]; a limit of
    1000 gives 20 and a limit of 5 gives 5. *)
Theorem limit_clamping :
  (forall a, dict_lookup "limit" (query_params a) = Some (PInt (Z.min (limit a) 20))) /\
  (forall bz a w,
     match fst (query_bugs bz a w) with
     | Ok response =>
         (q ← subscript response "query_parameters"; subscript q "limit") =
         Ok (PInt (Z.min (limit a) 20))
     | Raise _ => True
     end) /\
  (forall a, limit a = 1000 -> dict_lookup "limit" (query_params a) = Some (PInt 20)) /\
  (forall a, limit a = 5 -> dict_lookup "limit" (query_params a) = Some (PInt 5)).
Proof.
  split; [|split; [|split]].
  - exact query_params_limit.
  - intros bz a w. destruct (logged_in bz) eqn:Hin.
    + rewrite query_bugs_unfold by done. simpl.
      destruct (build_query bz _) as [params|e]; simpl; [|done].
      destruct (result_bind _ _) as [bug_list|e]; simpl;
        unfold mbind, result_bind_inst, result_bind; simpl;
        by rewrite query_params_limit.
    + by rewrite query_bugs_logged_out.
  - intros a Hl. by rewrite query_params_limit, Hl.
  - intros a Hl. by rewrite query_params_limit, Hl.
Qed.

(** C3, as stated, fails: the query-compilation step runs before the
    [try] block, so what it raises reaches the caller.  On a tracker that
    is logged in and whose [build_query] raises, [query_bugs()] raises the
    same exception and returns no payload. *)
Lemma compilation_failure_propagates :
  logged_in Fixtures.rejecting = true /\
  build_query Fixtures.rejecting (PDict (query_params no_args)) =
    Raise (Exn "BugzillaError" "bad query") /\
  fst (query_bugs Fixtures.rejecting no_args Fixtures.fresh) =
    Raise (Exn "BugzillaError" "bad query").
Proof. repeat split. Qed.

(** C3, amended.  With the adapter logged in, every failure raised by the
    query-execution step, or by the normalisation of a returned bug, is
    caught: the call returns exactly the two-key payload
    [{error: "Query failed: <message>", query_parameters: <assembled set>}],
    which has no [bugs] key, after the two adapter calls.  A failure of the
    query-compilation step is not caught: it propagates to the caller. *)
Theorem query_failure_containment (bz : Bugzilla) (a : query_args) (w : world) :
  logged_in bz = true ->
  let q := PDict (query_params a) in
  let payload e :=
    PDict [("error", PStr ("Query failed: " +:+ exn_str e));
           ("query_parameters", q)] in
  (forall params e,
     build_query bz q = Ok params ->
     query bz params = Raise e ->
     query_bugs bz a w =
     (Ok (payload e), World (fs w) (log w ++ [CallBuildQuery q; CallQuery params]))) /\
  (forall params bugs e,
     build_query bz q = Ok params ->
     query bz params = Ok bugs ->
     result_mapM convert_bug_to_dict bugs = Raise e ->
     query_bugs bz a w =
     (Ok (payload e), World (fs w) (log w ++ [CallBuildQuery q; CallQuery params]))) /\
  (forall e, subscript (payload e) "bugs" = Raise (KeyError "'bugs'")) /\
  (forall e,
     build_query bz q = Raise e ->
     query_bugs bz a w = (Raise e, World (fs w) (log w ++ [CallBuildQuery q]))).
Proof.
  intros Hin q payload. repeat split.
  - intros params e Hb Hq. rewrite query_bugs_unfold by done. simpl.
    fold q. by rewrite Hb, Hq.
  - intros params bugs e Hb Hq Hc. rewrite query_bugs_unfold by done. simpl.
    fold q. rewrite Hb, Hq. simpl. by rewrite Hc.
  - intros e Hb. rewrite query_bugs_unfold by done. simpl.
    fold q. by rewrite Hb.
Qed.

(** The amended C3 at work, on a tracker that cannot be reached. *)
Lemma query_failure_containment_witness :
  query_bugs Fixtures.unreachable no_args Fixtures.fresh =
  (Ok (PDict [("error", PStr "Query failed: Max retries exceeded");
              ("query_parameters", PDict [("limit", PInt 20); ("offset", PInt 0)])]),
   World ∅ [CallBuildQuery (PDict [("limit", PInt 20); ("offset", PInt 0)]);
            CallQuery (PDict [("limit", PInt 20); ("offset", PInt 0)])]).
Proof.
  exact (proj1 (query_failure_containment Fixtures.unreachable no_args
                  Fixtures.fresh eq_refl) _ _ eq_refl eq_refl).
Defined.

(** ** [get_search_options] *)

Ltac run :=
  unfold mbind, M_bind, mret, M_ret, raise, return_, lift, emit, get_fs,
    put_file, load_fields, store_fields; simpl.

(** The [try] body against its reading [derived]: same outcome, the
    adapter calls logged, and [fields] assigned only on success. *)
Lemma derive_spec (bz : Bugzilla) (fr : frame) :
  derive bz fr =
  (match derived bz with Ok _ => Normal tt | Raise e => Raises e end,
   Frame (World (fs (fr_world fr)) (log (fr_world fr) ++ derive_calls bz))
         (match derived bz with Ok v => v | Raise _ => fr_fields fr end)).
Proof.
  destruct fr as [[files evs] f].
  unfold derive, derived, derive_calls, bz_getproducts, bz_getbugfields.
  run. unfold result_bind_inst, result_bind.
  destruct (getproducts bz) as [products|e]; simpl; [|done].
  destruct (names_of products) as [names|e]; simpl; [|done].
  rewrite <- app_assoc; simpl.
  destruct (getbugfields bz) as [bugfields|e]; simpl; [|done].
  destruct (py_iter bugfields) as [items|e]; simpl; [|done].
  destruct (scan_fields _ items) as [o|e]; simpl; done.
Qed.

(** What the body assigns is always the five-key dictionary. *)
Lemma derived_dict (bz : Bugzilla) (v : PyValue) :
  derived bz = Ok v -> exists names o, v = assemble names o.
Proof.
  unfold derived, mbind, result_bind_inst, result_bind.
  destruct (getproducts bz) as [products|e]; [|done].
  destruct (names_of products) as [names|e]; [|done].
  destruct (getbugfields bz) as [bugfields|e]; [|done].
  destruct (py_iter bugfields) as [items|e]; [|done].
  destruct (scan_fields _ items) as [o|e]; [|done].
  intros [= <-]. by exists names, o.
Qed.

(** A failure of either adapter call is a failure of the body. *)
Lemma derived_getproducts_raises (bz : Bugzilla) (e : exn) :
  getproducts bz = Raise e -> derived bz = Raise e /\ derive_calls bz = [CallGetProducts].
Proof. unfold derived, derive_calls. by intros ->. Qed.

Lemma derived_getbugfields_raises (bz : Bugzilla) (names : list PyValue) (e : exn) :
  getproducts bz ≫= names_of = Ok names ->
  getbugfields bz = Raise e ->
  derived bz = Raise e /\ derive_calls bz = [CallGetProducts; CallGetBugFields].
Proof.
  unfold derived, derive_calls, mbind, result_bind_inst, result_bind.
  destruct (getproducts bz) as [products|e']; [|done].
  by intros -> ->.
Qed.

(** With a cache file: the file is read and parsed, nothing else. *)
Lemma get_search_options_cached (json_loads : string -> result PyValue)
    (bz : Bugzilla) (w : world) (raw : string) :
  logged_in bz = true ->
  fs w !! cache_path = Some raw ->
  get_search_options json_loads bz w =
  (json_loads raw,
   World (fs w)
         (log w ++ [FileExists cache_path; FileOpen cache_path "r";
                    FileRead cache_path])).
Proof.
  intros Hin Hfile. destruct w as [files evs]; simpl in *.
  unfold get_search_options, call, get_search_options_body, path_exists,
    read_text, py_assert.
  rewrite Hin. run. rewrite Hfile.
  rewrite bool_decide_true by eauto. run. rewrite Hfile. run.
  rewrite <- !app_assoc; simpl.
  destruct (json_loads raw) as [v|e]; simpl; done.
Qed.

(** Without one: a failed derivation gives the error payload and leaves
    the files alone; a successful one ends in the [TypeError] of
    [fp.write(fields)], after [open] has left an empty file. *)
Lemma get_search_options_derives (json_loads : string -> result PyValue)
    (bz : Bugzilla) (w : world) :
  logged_in bz = true ->
  fs w !! cache_path = None ->
  get_search_options json_loads bz w =
  match derived bz with
  | Raise e =>
      (Ok (PDict [("error", PStr ("Failed to get search options: " +:+ exn_str e))]),
       World (fs w) (log w ++ FileExists cache_path :: derive_calls bz))
  | Ok _ =>
      (Raise (TypeError "write() argument must be str, not dict"),
       World (<[cache_path := ""]> (fs w))
             (log w ++ FileExists cache_path :: derive_calls bz ++
                       [FileOpen cache_path "w+"]))
  end.
Proof.
  intros Hin Hfile. destruct w as [files evs]; simpl in *.
  unfold get_search_options, call, get_search_options_body, path_exists,
    py_assert, try_finally, try_except.
  rewrite Hin. run. rewrite Hfile.
  rewrite bool_decide_false by (by intros [? ?]).
  rewrite derive_spec; simpl.
  destruct (derived bz) as [v|e] eqn:Hd; simpl.
  - destruct (derived_dict _ _ Hd) as (names & o & ->).
    unfold persist, open_truncate. run.
    by rewrite <- !app_assoc.
  - unfold persist. run. by rewrite <- !app_assoc.
Qed.

(** C2.  Corrupt-cache passthrough: with the adapter logged in, whenever
    the cache file exists and its text parses, to any value whatever,
    [get_search_options] returns that value as parsed.  The files are
    unchanged, and the only events are the existence test, the opening
    for reading and the read: no adapter call, no validation, no write. *)
Theorem corrupt_cache_passthrough (json_loads : string -> result PyValue)
    (bz : Bugzilla) (w : world) (raw : string) (parsed : PyValue) :
  logged_in bz = true ->
  fs w !! cache_path = Some raw ->
  json_loads raw = Ok parsed ->
  get_search_options json_loads bz w =
  (Ok parsed,
   World (fs w)
         (log w ++ [FileExists cache_path; FileOpen cache_path "r";
                    FileRead cache_path])).
Proof.
  intros Hin Hfile Hparse.
  by rewrite (get_search_options_cached _ _ _ raw), Hparse.
Qed.

(** C2 on the cache file [{"foo": 1}]. *)
Lemma corrupt_cache_passthrough_witness :
  get_search_options Fixtures.loads Fixtures.tracker Fixtures.foo_cached =
  (Ok (PDict [("foo", PInt 1)]),
   World {[ cache_path := Fixtures.foo_text ]}
         [FileExists cache_path; FileOpen cache_path "r"; FileRead cache_path]).
Proof.
  exact (corrupt_cache_passthrough Fixtures.loads Fixtures.tracker
           Fixtures.foo_cached Fixtures.foo_text (PDict [("foo", PInt 1)])
           eq_refl eq_refl eq_refl).
Defined.

(** C7.  Search-options failure semantics: with the adapter logged in and
    no cache file, whatever [getproducts] raises, and whatever
    [getbugfields] raises once the product names are there, is caught:
    the call returns, and what it returns is the one-key payload
    [{error: "Failed to get search options: <cause>"}].  The files are
    untouched, and the events are the existence test and the adapter
    calls made. *)
Theorem search_options_failure (json_loads : string -> result PyValue)
    (bz : Bugzilla) (w : world) (e : exn) :
  logged_in bz = true ->
  fs w !! cache_path = None ->
  getproducts bz = Raise e \/
    (exists names, getproducts bz ≫= names_of = Ok names /\
                   getbugfields bz = Raise e) ->
  exists calls,
    get_search_options json_loads bz w =
    (Ok (PDict [("error", PStr ("Failed to get search options: " +:+ exn_str e))]),
     World (fs w) (log w ++ FileExists cache_path :: calls)) /\
    Forall (fun ev => is_adapter_call ev = true) calls.
Proof.
  intros Hin Hfile Hfail.
  rewrite get_search_options_derives by done.
  destruct Hfail as [Hp|(names & Hp & Hf)].
  - destruct (derived_getproducts_raises _ _ Hp) as [-> ->].
    eexists. split; [done|]. by repeat constructor.
  - destruct (derived_getbugfields_raises _ _ _ Hp Hf) as [-> ->].
    eexists. split; [done|]. by repeat constructor.
Qed.

(** C7 on a tracker that cannot be reached. *)
Lemma search_options_failure_witness :
  exists calls,
    get_search_options Fixtures.loads Fixtures.unreachable Fixtures.fresh =
    (Ok (PDict [("error", PStr "Failed to get search options: Max retries exceeded")]),
     World ∅ (FileExists cache_path :: calls)) /\
    Forall (fun ev => is_adapter_call ev = true) calls.
Proof.
  exact (search_options_failure Fixtures.loads Fixtures.unreachable
           Fixtures.fresh Fixtures.ConnectionError eq_refl eq_refl
           (or_introl eq_refl)).
Defined.

(** Every exception of the [try] body ends the same way, also one raised
    while the answers are taken apart. *)
Lemma search_options_failure_any (json_loads : string -> result PyValue)
    (bz : Bugzilla) (w : world) (e : exn) :
  logged_in bz = true ->
  fs w !! cache_path = None ->
  derived bz = Raise e ->
  get_search_options json_loads bz w =
  (Ok (PDict [("error", PStr ("Failed to get search options: " +:+ exn_str e))]),
   World (fs w) (log w ++ FileExists cache_path :: derive_calls bz)).
Proof.
  intros Hin Hfile Hd. by rewrite get_search_options_derives, Hd.
Qed.

(** C1, on the code.  Two calls in a row with no cache file at the start,
    on a tracker that answers, whatever [json.loads] does.  The first call
    makes its round trip to the tracker and then raises the [TypeError] of
    [fp.write(fields)]: it returns no search options, and the file it
    leaves is empty.  The second call makes no adapter call; it finds that
    file and its result is that of parsing the empty text, which for
    [json.loads] is a [JSONDecodeError]. *)
Theorem cache_idempotence_fails (json_loads : string -> result PyValue) :
  let first := get_search_options json_loads Fixtures.tracker Fixtures.fresh in
  let second := get_search_options json_loads Fixtures.tracker (snd first) in
  fst first = Raise (TypeError "write() argument must be str, not dict") /\
  fs (snd first) !! cache_path = Some "" /\
  List.filter is_adapter_call (log (snd first)) = [CallGetProducts; CallGetBugFields] /\
  fst second = json_loads "" /\
  List.filter is_adapter_call (log (snd second)) = [CallGetProducts; CallGetBugFields] /\
  fs (snd second) !! cache_path = Some "" /\
  Fixtures.loads "" =
    Raise (Fixtures.JSONDecodeError "Expecting value: line 1 column 1 (char 0)").
Proof.
  assert (H1 : get_search_options json_loads Fixtures.tracker Fixtures.fresh =
               (Raise (TypeError "write() argument must be str, not dict"),
                World (<[cache_path := ""]> ∅)
                      [FileExists cache_path; CallGetProducts; CallGetBugFields;
                       FileOpen cache_path "w+"])).
  { by rewrite get_search_options_derives. }
  cbv zeta. rewrite H1. simpl.
  rewrite (get_search_options_cached _ _ _ "") by (done || apply lookup_insert_eq).
  simpl. repeat split; apply lookup_insert_eq.
Qed.

(** C6, on the code.  On the derivation path the assembled object never
    reaches the file.  A tracker with products and field values: the call
    raises at [fp.write(fields)] and the file holds the empty text.  A
    tracker with no product and no field value: the guard counts the five
    keys of the object, not its sequences, so the file is opened, and
    truncated, all the same. *)
Theorem assembled_options_not_persisted :
  (derived Fixtures.tracker =
     Ok (PDict [("products", PList [PStr "SUSEConnect"; PStr "openSUSE"]);
                ("statuses", PList [PStr "NEW"; PStr "RESOLVED"]);
                ("priorities", PList [PStr "P1"; PStr "P2"]);
                ("severities", PList [PStr "Medium"]);
                ("search_tips", search_tips)]) /\
   get_search_options Fixtures.loads Fixtures.tracker Fixtures.fresh =
     (Raise (TypeError "write() argument must be str, not dict"),
      World {[ cache_path := "" ]}
            [FileExists cache_path; CallGetProducts; CallGetBugFields;
             FileOpen cache_path "w+"])) /\
  (derived Fixtures.empty_tracker =
     Ok (PDict [("products", PList []); ("statuses", PList []);
                ("priorities", PList []); ("severities", PList []);
                ("search_tips", search_tips)]) /\
   get_search_options Fixtures.loads Fixtures.empty_tracker Fixtures.fresh =
     (Raise (TypeError "write() argument must be str, not dict"),
      World {[ cache_path := "" ]}
            [FileExists cache_path; CallGetProducts; CallGetBugFields;
             FileOpen cache_path "w+"])).
Proof.
  repeat split; by rewrite get_search_options_derives.
Qed.

(** ** The login precondition *)

(** C10.  Each of the three tools asserts the login first.  On an adapter
    that is not logged in, [get_bug], [query_bugs] and
    [get_search_options] raise [AssertionError] and leave the world as it
    was: no event is logged, so no adapter call, no cache access.  The
    result is the exception itself, not an error payload. *)
Theorem login_precondition (json_loads : string -> result PyValue)
    (bz : Bugzilla) (bug_id : Z) (a : query_args) (w : world) :
  logged_in bz = false ->
  get_bug bz bug_id w = (Raise AssertionError, w) /\
  query_bugs bz a w = (Raise AssertionError, w) /\
  get_search_options json_loads bz w = (Raise AssertionError, w).
Proof.
  intros Hout. destruct w as [files evs].
  unfold get_bug, query_bugs, get_search_options, call, get_bug_body,
    query_bugs_body, get_search_options_body, py_assert.
  rewrite Hout. by repeat split.
Qed.

(** C10 on the logged-out tracker, with a cache file in place. *)
Lemma login_precondition_witness :
  get_bug Fixtures.logged_out 1234 Fixtures.foo_cached =
    (Raise AssertionError, Fixtures.foo_cached) /\
  query_bugs Fixtures.logged_out no_args Fixtures.foo_cached =
    (Raise AssertionError, Fixtures.foo_cached) /\
  get_search_options Fixtures.loads Fixtures.logged_out Fixtures.foo_cached =
    (Raise AssertionError, Fixtures.foo_cached).
Proof.
  exact (login_precondition Fixtures.loads Fixtures.logged_out 1234 no_args
           Fixtures.foo_cached eq_refl).
Defined.

(** ** [convert_bug_to_dict] *)

Lemma join_items_strs (i : nat) (l : list string) :
  join_items i (map PStr l) = Ok l.
Proof.
  revert i. induction l as [|s l IH]; intros i; simpl; [done|].
  by rewrite IH.
Qed.

Lemma str_join_strs (sep : string) (l : list string) :
  str_join sep (PList (map PStr l)) = Ok (PStr (join_strs sep l)).
Proof. unfold str_join; simpl. by rewrite join_items_strs. Qed.

(** A missing field is not caught by the normaliser: without an [email]
    in [creator_detail] the subscript raises. *)
Example anonymous_bug_raises :
  convert_bug_to_dict Fixtures.anonymous_bug = Raise (KeyError "'email'").
Proof. vm_compute. reflexivity. Qed.

(** C8, as stated, fails on the number of keys: the record of a bug that
    has every field has fifteen keys, not fourteen. *)
Lemma normalized_bug_has_fifteen_keys :
  exists d,
    convert_bug_to_dict Fixtures.sample_bug = Ok (PDict d) /\
    dict_keys d =
      ["product_name"; "bug_id"; "bug_priority"; "created"; "status";
       "summary"; "severity"; "bug_cc"; "creator"; "platform"; "keywords";
       "component"; "groups"; "weburl"; "confirmed"] /\
    length (dict_keys d) = 15%nat /\
    length (dict_keys d) <> 14%nat.
Proof.
  eexists. split; [vm_compute; reflexivity|].
  repeat split. discriminate.
Qed.

(** C8, amended.  For a bug object that has every field the normaliser
    reads, with lists of strings as [keywords] and [groups] and an
    [email] in [creator_detail], the record has exactly these fifteen
    keys, in this order, each with the field's value; [keywords] is the
    list joined by semicolons and [groups] the list joined by spaces.
    Joining no string gives the empty string, joining one gives that
    string, and joining more puts the separator between neighbours. *)
Theorem normalizer_completeness (bug : Bug)
    (product id priority creation_time status summary severity cc email
     platform component weburl is_confirmed : PyValue)
    (creator_detail : list (string * PyValue)) (keywords groups : list string) :
  attrs bug !! "product" = Some product ->
  attrs bug !! "id" = Some id ->
  attrs bug !! "priority" = Some priority ->
  attrs bug !! "creation_time" = Some creation_time ->
  attrs bug !! "status" = Some status ->
  attrs bug !! "summary" = Some summary ->
  attrs bug !! "severity" = Some severity ->
  attrs bug !! "cc" = Some cc ->
  attrs bug !! "creator_detail" = Some (PDict creator_detail) ->
  dict_lookup "email" creator_detail = Some email ->
  attrs bug !! "platform" = Some platform ->
  attrs bug !! "keywords" = Some (PList (map PStr keywords)) ->
  attrs bug !! "component" = Some component ->
  attrs bug !! "groups" = Some (PList (map PStr groups)) ->
  attrs bug !! "weburl" = Some weburl ->
  attrs bug !! "is_confirmed" = Some is_confirmed ->
  convert_bug_to_dict bug =
    Ok (PDict [
      ("product_name", product);
      ("bug_id", id);
      ("bug_priority", priority);
      ("created", creation_time);
      ("status", status);
      ("summary", summary);
      ("severity", severity);
      ("bug_cc", cc);
      ("creator", email);
      ("platform", platform);
      ("keywords", PStr (join_strs ";" keywords));
      ("component", component);
      ("groups", PStr (join_strs " " groups));
      ("weburl", weburl);
      ("confirmed", is_confirmed)
    ]) /\
  (forall sep, join_strs sep [] = "") /\
  (forall sep s, join_strs sep [s] = s) /\
  (forall sep s t l,
     join_strs sep (s :: t :: l) = s +:+ sep +:+ join_strs sep (t :: l)).
Proof.
  intros Hproduct Hid Hpriority Hcreation Hstatus Hsummary Hseverity Hcc
    Hdetail Hemail Hplatform Hkeywords Hcomponent Hgroups Hweburl Hconfirmed.
  split; [|by repeat split].
  unfold convert_bug_to_dict, getattr.
  rewrite Hproduct, Hid, Hpriority, Hcreation, Hstatus, Hsummary, Hseverity,
    Hcc, Hdetail, Hplatform, Hkeywords, Hcomponent, Hgroups, Hweburl,
    Hconfirmed.
  unfold mbind, result_bind_inst, result_bind, subscript.
  by rewrite Hemail, !str_join_strs.
Qed.

(** The amended C8 on a bug with two keywords and no group. *)
Lemma normalizer_completeness_witness :
  convert_bug_to_dict Fixtures.sample_bug =
    Ok (PDict [
      ("product_name", PStr "SUSEConnect");
      ("bug_id", PInt 1234);
      ("bug_priority", PStr "P2");
      ("created", PStr "20240102T03:04:05");
      ("status", PStr "NEW");
      ("summary", PStr "Registration fails");
      ("severity", PStr "Medium");
      ("bug_cc", PList [PStr "qa@example.org"]);
      ("creator", PStr "dev@example.org");
      ("platform", PStr "x86-64");
      ("keywords", PStr "regression;triaged");
      ("component", PStr "General");
      ("groups", PStr "");
      ("weburl", PStr "https://bugzilla.example.org/show_bug.cgi?id=1234");
      ("confirmed", PBool true)
    ]).
Proof.
  exact (proj1 (normalizer_completeness Fixtures.sample_bug
    (PStr "SUSEConnect") (PInt 1234) (PStr "P2") (PStr "20240102T03:04:05")
    (PStr "NEW") (PStr "Registration fails") (PStr "Medium")
    (PList [PStr "qa@example.org"]) (PStr "dev@example.org") (PStr "x86-64")
    (PStr "General")
    (PStr "https://bugzilla.example.org/show_bug.cgi?id=1234") (PBool true)
    [("email", PStr "dev@example.org"); ("real_name", PStr "Dev")]
    ["regression"; "triaged"] []
    eq_refl eq_refl eq_refl eq_refl eq_refl eq_refl eq_refl eq_refl eq_refl
    eq_refl eq_refl eq_refl eq_refl eq_refl eq_refl eq_refl)).
Defined.

(** ** [BugzillaConfig] *)

Import Config.

Lemma append_cons (a : ascii) (s t : string) :
  String a s +:+ t = String a (s +:+ t).
Proof. reflexivity. Qed.

Lemma append_nil (t : string) : "" +:+ t = t.
Proof. reflexivity. Qed.

Lemma startswith_spec (s p : string) :
  startswith s p = true <-> exists rest, s = p +:+ rest.
Proof.
  unfold startswith. revert s.
  induction p as [|a p IH]; intros [|b s]; simpl.
  - split; [by exists "" | done].
  - split; [by exists (String b s) | done].
  - split; [done | by intros [rest ?]].
  - destruct (ascii_dec a b) as [<-|Hne].
    + rewrite IH. split; intros [rest Hrest]; exists rest;
        rewrite append_cons in *; congruence.
    + split; [done|]. intros [rest [= Hab _]]. congruence.
Qed.

Lemma in_levels_spec (s : string) : in_levels s = true <-> In s valid_levels.
Proof.
  unfold in_levels. rewrite existsb_exists. split.
  - intros (l & Hin & Heq). apply String.eqb_eq in Heq. by subst.
  - intros Hin. exists s. split; [done | apply String.eqb_refl].
Qed.

(** [rstrip] takes off a tail made of the character only. *)
Lemma rstrip_tail (c : ascii) (s : string) :
  exists tail, s = rstrip c s +:+ tail /\ only c tail = true.
Proof.
  induction s as [|a s (tail & Hs & Htail)]; simpl.
  - by exists "".
  - destruct (rstrip c s) as [|b r] eqn:Hr.
    + rewrite append_nil in Hs. subst tail.
      destruct (Ascii.eqb a c) eqn:Hac.
      * exists (String a s). split; [done|]. simpl. by rewrite Hac.
      * exists s. by split.
    + exists tail. split; [|done]. rewrite append_cons. by rewrite <- Hs.
Qed.

(** What [rstrip] leaves does not end in the character. *)
Lemma rstrip_no_trailing (c : ascii) (s t : string) :
  rstrip c s <> t +:+ String c "".
Proof.
  revert t. induction s as [|a s IH]; intros t; simpl.
  - by destruct t.
  - destruct (rstrip c s) as [|b r] eqn:Hr.
    + destruct (Ascii.eqb a c) eqn:Hac.
      * by destruct t.
      * destruct t as [|a' t].
        -- rewrite append_nil. intros [= ->]. by rewrite Ascii.eqb_refl in Hac.
        -- rewrite append_cons. intros [= _ Ht]. by destruct t.
    + destruct t as [|a' t].
      * rewrite append_nil. intros [= _ ?].
      * rewrite append_cons. intros [= _ Ht]. by apply (IH t).
Qed.

(** * Further properties of the tools *)

(** ** [get_bug] *)

Lemma get_bug_unfold (bz : Bugzilla) (bug_id : Z) (w : world) :
  logged_in bz = true ->
  get_bug bz bug_id w =
  (getbug bz bug_id ≫= convert_bug_to_dict,
   World (fs w) (log w ++ [CallGetBug bug_id])).
Proof.
  intros Hin. destruct w as [files evs].
  unfold get_bug, call, get_bug_body, bz_getbug, py_assert.
  rewrite Hin. run.
  destruct (getbug bz bug_id) as [bug|e]; simpl; [|done].
  by destruct (convert_bug_to_dict bug).
Qed.

(** [get_bug] on a logged-in adapter asks the tracker once and leaves the
    files alone.  It returns the normalised record of the bug; and what
    [getbug] or the normaliser raises reaches the caller as it is, with
    no error payload in between. *)
Theorem get_bug_result (bz : Bugzilla) (bug_id : Z) (w : world) :
  logged_in bz = true ->
  let w' := World (fs w) (log w ++ [CallGetBug bug_id]) in
  (forall bug record,
     getbug bz bug_id = Ok bug -> convert_bug_to_dict bug = Ok record ->
     get_bug bz bug_id w = (Ok record, w')) /\
  (forall e,
     getbug bz bug_id = Raise e -> get_bug bz bug_id w = (Raise e, w')) /\
  (forall bug e,
     getbug bz bug_id = Ok bug -> convert_bug_to_dict bug = Raise e ->
     get_bug bz bug_id w = (Raise e, w')).
Proof.
  intros Hin w'. repeat split.
  - intros bug record Hb Hc. rewrite get_bug_unfold by done.
    rewrite Hb. simpl. by rewrite <- Hc.
  - intros e Hb. rewrite get_bug_unfold by done. by rewrite Hb.
  - intros bug e Hb Hc. rewrite get_bug_unfold by done.
    rewrite Hb. simpl. by rewrite <- Hc.
Qed.

Lemma get_bug_result_witness :
  get_bug Fixtures.unreachable 7 Fixtures.fresh =
  (Raise Fixtures.ConnectionError, World ∅ [CallGetBug 7]).
Proof.
  exact (proj1 (proj2 (get_bug_result Fixtures.unreachable 7 Fixtures.fresh
                         eq_refl)) _ eq_refl).
Defined.

(** ** The page of [query_bugs] *)

Lemma result_mapM_ok {A B} (f : A -> result B) (l : list A) (ys : list B) :
  result_mapM f l = Ok ys <-> Forall2 (fun x y => f x = Ok y) l ys.
Proof.
  revert ys. induction l as [|x l IH]; intros ys; simpl.
  - split.
    + intros [= <-]. constructor.
    + intros H. by apply Forall2_nil_inv_l in H as ->.
  - destruct (f x) as [y|e] eqn:Hx; simpl.
    + destruct (result_mapM f l) as [ys'|e] eqn:Hl; simpl.
      * split.
        -- intros [= <-]. constructor; [done | by apply IH].
        -- intros H. apply Forall2_cons_inv_l in H as (y' & ys'' & Hy & Hys & ->).
           apply IH in Hys. congruence.
      * split; [done|].
        intros H. apply Forall2_cons_inv_l in H as (y' & ys'' & Hy & Hys & ->).
        apply IH in Hys. discriminate.
    + split; [done|].
      intros H. apply Forall2_cons_inv_l in H as (y' & ys'' & Hy & Hys & ->).
      congruence.
Qed.

(** A successful [query_bugs]: [total_results] is the number of bugs the
    adapter returned for this page, [bugs] holds their records in the
    adapter's order, [offset] is the caller's offset as passed, negative
    or not, and [limit] is the clamped limit. *)
Theorem query_bugs_page (bz : Bugzilla) (a : query_args) (w : world)
    (params : PyValue) (bugs : list Bug) (records : list PyValue) :
  logged_in bz = true ->
  build_query bz (PDict (query_params a)) = Ok params ->
  query bz params = Ok bugs ->
  Forall2 (fun bug record => convert_bug_to_dict bug = Ok record) bugs records ->
  query_bugs bz a w =
  (Ok (PDict [
     ("total_results", PInt (Z.of_nat (length bugs)));
     ("offset", PInt (offset a));
     ("limit", PInt (Z.min (limit a) 20));
     ("query_parameters", PDict (query_params a));
     ("bugs", PList records)
   ]),
   World (fs w) (log w ++ [CallBuildQuery (PDict (query_params a));
                           CallQuery params])).
Proof.
  intros Hin Hb Hq Hrec.
  rewrite query_bugs_unfold by done. simpl. rewrite Hb, Hq. simpl.
  rewrite (Forall2_length _ _ _ Hrec).
  apply result_mapM_ok in Hrec. by rewrite Hrec.
Qed.

(** ** What the tools leave alone *)

Lemma get_bug_logged_out (bz : Bugzilla) (bug_id : Z) (w : world) :
  logged_in bz = false -> get_bug bz bug_id w = (Raise AssertionError, w).
Proof.
  intros Hout. destruct w as [files evs].
  unfold get_bug, call, get_bug_body, py_assert. by rewrite Hout.
Qed.

Lemma get_search_options_logged_out (json_loads : string -> result PyValue)
    (bz : Bugzilla) (w : world) :
  logged_in bz = false ->
  get_search_options json_loads bz w = (Raise AssertionError, w).
Proof.
  intros Hout. destruct w as [files evs].
  unfold get_search_options, call, get_search_options_body, py_assert.
  by rewrite Hout.
Qed.

Lemma derive_calls_adapter (bz : Bugzilla) :
  Forall (fun ev => is_adapter_call ev = true) (derive_calls bz) /\
  (length (derive_calls bz) <= 2)%nat.
Proof.
  unfold derive_calls. destruct (_ ≫= _); split; repeat constructor.
Qed.

(** [get_bug] and [query_bugs] never read or write a file, logged in or
    not, whatever the adapter answers: the files after the call are the
    files before, and all the call adds to the log is adapter calls, at
    most one for [get_bug] and at most two for [query_bugs]. *)
Theorem bug_tools_frame (bz : Bugzilla) (bug_id : Z) (a : query_args) (w : world) :
  (fs (snd (get_bug bz bug_id w)) = fs w /\
   exists calls,
     log (snd (get_bug bz bug_id w)) = (log w ++ calls)%list /\
     Forall (fun ev => is_adapter_call ev = true) calls /\
     (length calls <= 1)%nat) /\
  (fs (snd (query_bugs bz a w)) = fs w /\
   exists calls,
     log (snd (query_bugs bz a w)) = (log w ++ calls)%list /\
     Forall (fun ev => is_adapter_call ev = true) calls /\
     (length calls <= 2)%nat).
Proof.
  destruct (logged_in bz) eqn:Hin.
  - rewrite get_bug_unfold, query_bugs_unfold by done. simpl. split.
    + split; [done|]. eexists. split; [done|]. split; repeat constructor.
    + destruct (build_query bz _) as [params|e]; simpl.
      * destruct (result_bind _ _); simpl;
          (split; [done|]); eexists; (split; [done|]); split; repeat constructor.
      * split; [done|]. eexists. split; [done|]. split; repeat constructor.
  - rewrite get_bug_logged_out, query_bugs_logged_out by done. simpl.
    split; (split; [done|]); exists []; rewrite app_nil_r;
      (split; [done|]); split; repeat constructor.
Qed.

(** [get_search_options] touches no file but the cache file, in every
    case; it calls the adapter at most twice; and when the cache file is
    there it calls the adapter not at all and leaves every file as it
    is. *)
Theorem get_search_options_frame (json_loads : string -> result PyValue)
    (bz : Bugzilla) (w : world) :
  let w' := snd (get_search_options json_loads bz w) in
  (forall path, path <> cache_path -> fs w' !! path = fs w !! path) /\
  (exists evs,
     log w' = (log w ++ evs)%list /\
     (length (List.filter is_adapter_call evs) <= 2)%nat /\
     (is_Some (fs w !! cache_path) -> List.filter is_adapter_call evs = [])) /\
  (is_Some (fs w !! cache_path) -> fs w' = fs w).
Proof.
  cbv zeta. destruct (logged_in bz) eqn:Hin.
  - destruct (fs w !! cache_path) as [raw|] eqn:Hfile.
    + rewrite (get_search_options_cached _ _ _ raw) by done. simpl.
      split; [done|]. split; [|done].
      eexists. split; [done|]. simpl. split; [lia|done].
    + rewrite get_search_options_derives by done.
      destruct (derive_calls_adapter bz) as [Hcalls Hlen].
      assert (Hfilter : List.filter is_adapter_call (derive_calls bz) = derive_calls bz).
      { apply forallb_filter_id, forallb_forall.
        intros ev Hev. by apply (proj1 (List.Forall_forall _ _) Hcalls). }
      destruct (derived bz) as [v|e]; simpl.
      * split; [|split].
        -- intros path Hne. by rewrite lookup_insert_ne.
        -- eexists. split; [done|]. simpl. rewrite List.filter_app, Hfilter. simpl.
           rewrite app_nil_r. split; [done|]. by intros [? ?].
        -- by intros [? ?].
      * split; [|split].
        -- done.
        -- eexists. split; [done|]. simpl. rewrite Hfilter.
           split; [done|]. by intros [? ?].
        -- done.
  - rewrite get_search_options_logged_out by done. simpl.
    split; [done|]. split; [|done].
    exists []. rewrite app_nil_r. simpl. split; [done|]. split; [lia|done].
Qed.

(** ** The derivation path never yields search options *)

(** With no cache file, whatever the tracker answers, a call that returns
    at all returns the error payload of a failed derivation: a successful
    derivation ends in the [TypeError] of the write.  So search options
    are only ever returned out of a cache file that was already there. *)
Theorem derivation_returns_no_options (json_loads : string -> result PyValue)
    (bz : Bugzilla) (w w' : world) (v : PyValue) :
  logged_in bz = true ->
  fs w !! cache_path = None ->
  get_search_options json_loads bz w = (Ok v, w') ->
  exists e,
    derived bz = Raise e /\
    v = PDict [("error", PStr ("Failed to get search options: " +:+ exn_str e))] /\
    fs w' = fs w.
Proof.
  intros Hin Hfile. rewrite get_search_options_derives by done.
  destruct (derived bz) as [v0|e]; [done|].
  intros [= <- <-]. by exists e.
Qed.

Lemma derivation_returns_no_options_witness :
  exists e,
    derived Fixtures.unreachable = Raise e /\
    PDict [("error", PStr "Failed to get search options: Max retries exceeded")] =
    PDict [("error", PStr ("Failed to get search options: " +:+ exn_str e))] /\
    fs (World ∅ [FileExists cache_path; CallGetProducts]) = fs Fixtures.fresh.
Proof.
  exact (derivation_returns_no_options Fixtures.loads Fixtures.unreachable
           Fixtures.fresh _ _ eq_refl eq_refl eq_refl).
Defined.

(** A product without a [name] ends the derivation before the field list
    is asked for: the call returns the error payload after one adapter
    call, and writes nothing. *)
Theorem malformed_products_reported (json_loads : string -> result PyValue)
    (bz : Bugzilla) (w : world) (products : PyValue) (e : exn) :
  logged_in bz = true ->
  fs w !! cache_path = None ->
  getproducts bz = Ok products ->
  names_of products = Raise e ->
  get_search_options json_loads bz w =
  (Ok (PDict [("error", PStr ("Failed to get search options: " +:+ exn_str e))]),
   World (fs w) (log w ++ [FileExists cache_path; CallGetProducts])).
Proof.
  intros Hin Hfile Hp Hn. rewrite get_search_options_derives by done.
  unfold derived, derive_calls. rewrite Hp. simpl. by rewrite Hn.
Qed.

(** ** The cache over many calls *)

Lemma after_calls_cached (json_loads : string -> result PyValue)
    (bz : Bugzilla) (w : world) (raw : string) (n : nat) :
  logged_in bz = true ->
  fs w !! cache_path = Some raw ->
  fs (after_calls json_loads bz n w) = fs w /\
  List.filter is_adapter_call (log (after_calls json_loads bz n w)) =
  List.filter is_adapter_call (log w).
Proof.
  intros Hin Hfile. induction n as [|n [IHfs IHlog]]; simpl; [done|].
  rewrite (get_search_options_cached _ _ _ raw) by (done || by rewrite IHfs).
  simpl. split; [done|].
  rewrite List.filter_app. simpl. by rewrite app_nil_r.
Qed.

(** A call after [n] calls on a cached file. *)
Lemma get_search_options_after_calls (json_loads : string -> result PyValue)
    (bz : Bugzilla) (w : world) (raw : string) (n : nat) :
  logged_in bz = true ->
  fs w !! cache_path = Some raw ->
  get_search_options json_loads bz (after_calls json_loads bz n w) =
  (json_loads raw,
   World (fs w)
         (log (after_calls json_loads bz n w) ++
          [FileExists cache_path; FileOpen cache_path "r"; FileRead cache_path])).
Proof.
  intros Hin Hfile.
  destruct (after_calls_cached json_loads bz w raw n Hin Hfile) as [Hfs _].
  rewrite (get_search_options_cached _ _ _ raw) by (done || by rewrite Hfs).
  by rewrite Hfs.
Qed.

(** The cache never expires.  Once the cache file is there, any number of
    calls in a row give the same result, the parse of that same text (or
    what the parser raises on it, uncaught); the file stays as it is and
    the adapter is not called once. *)
Theorem cache_never_refreshed (json_loads : string -> result PyValue)
    (bz : Bugzilla) (w : world) (raw : string) (n : nat) :
  logged_in bz = true ->
  fs w !! cache_path = Some raw ->
  let w_n := after_calls json_loads bz n w in
  fst (get_search_options json_loads bz w_n) = json_loads raw /\
  fs (snd (get_search_options json_loads bz w_n)) = fs w /\
  List.filter is_adapter_call (log (snd (get_search_options json_loads bz w_n))) =
  List.filter is_adapter_call (log w).
Proof.
  intros Hin Hfile w_n. unfold w_n.
  rewrite (get_search_options_after_calls _ _ _ raw) by done. simpl.
  split; [done|]. split; [done|].
  rewrite List.filter_app. simpl. rewrite app_nil_r.
  by apply (after_calls_cached json_loads bz w raw n).
Qed.

Lemma after_calls_succ (json_loads : string -> result PyValue)
    (bz : Bugzilla) (w : world) (n : nat) :
  after_calls json_loads bz (S n) w =
  after_calls json_loads bz n (snd (get_search_options json_loads bz w)).
Proof. induction n as [|n IH]; simpl in *; [done | by rewrite IH]. Qed.

(** A derivation that succeeds poisons the cache.  With no cache file at
    the start and a tracker whose answers can be assembled, the first call
    leaves the empty file, and from then on every call, however many,
    gives what the parser gives on the empty text; the tracker is never
    asked again, its two calls of the first round are all there is. *)
Theorem successful_derivation_poisons_cache (json_loads : string -> result PyValue)
    (bz : Bugzilla) (w : world) (assembled : PyValue) (n : nat) :
  logged_in bz = true ->
  fs w !! cache_path = None ->
  derived bz = Ok assembled ->
  let w_n := after_calls json_loads bz (S n) w in
  fs w_n !! cache_path = Some "" /\
  fst (get_search_options json_loads bz w_n) = json_loads "" /\
  List.filter is_adapter_call (log (snd (get_search_options json_loads bz w_n))) =
  (List.filter is_adapter_call (log w) ++ [CallGetProducts; CallGetBugFields])%list.
Proof.
  intros Hin Hfile Hd w_n. unfold w_n. rewrite after_calls_succ.
  set (w1 := snd (get_search_options json_loads bz w)).
  assert (Hw1 : fs w1 !! cache_path = Some "" /\
                List.filter is_adapter_call (log w1) =
                (List.filter is_adapter_call (log w) ++
                 [CallGetProducts; CallGetBugFields])%list).
  { unfold w1. rewrite get_search_options_derives, Hd by done. simpl.
    split; [apply lookup_insert_eq|].
    unfold derive_calls.
    assert (exists names, getproducts bz ≫= names_of = Ok names) as [names ->].
    { revert Hd. unfold derived, mbind, result_bind_inst, result_bind.
      destruct (getproducts bz) as [products|]; [|done].
      destruct (names_of products) as [names|]; [|done]. by exists names. }
    rewrite List.filter_app. simpl. done. }
  destruct Hw1 as [Hfile1 Hlog1].
  destruct (after_calls_cached json_loads bz w1 "" n Hin Hfile1) as [Hfs Hlog].
  rewrite (get_search_options_after_calls _ _ _ "") by done. simpl.
  split; [by rewrite Hfs|]. split; [done|].
  rewrite List.filter_app. simpl. by rewrite app_nil_r, Hlog.
Qed.

(** ** The loop over the field list *)

Lemma scan_fields_app (o : options) (l1 l2 : list PyValue) :
  scan_fields o (l1 ++ l2) =
  result_bind (scan_fields o l1) (fun o' => scan_fields o' l2).
Proof.
  revert o. induction l1 as [|field l1 IH]; intros o; simpl; [done|].
  destruct (scan_field o field) as [o'|e]; simpl; [apply IH | done].
Qed.

(** Only three field names count: a field whose [name] is a string other
    than [bug_status], [priority] and [bug_severity] changes nothing,
    wherever it stands in the field list, and whatever else it holds. *)
Theorem other_fields_ignored (o : options) (before after : list PyValue)
    (field : list (string * PyValue)) (name : string) :
  dict_lookup "name" field = Some (PStr name) ->
  name <> "bug_status" -> name <> "priority" -> name <> "bug_severity" ->
  scan_fields o (before ++ PDict field :: after) = scan_fields o (before ++ after).
Proof.
  intros Hname H1 H2 H3. rewrite !scan_fields_app.
  destruct (scan_fields o before) as [o'|e]; simpl; [|done].
  unfold scan_field, mbind, result_bind_inst, result_bind, subscript.
  rewrite Hname. simpl.
  apply String.eqb_neq in H1, H2, H3. by rewrite H1, H2, H3.
Qed.

(** The last field of a name wins.  A field named [bug_status] at the end
    of the list replaces whatever statuses the fields before it gave by
    the names of its own values, and leaves the priorities and severities
    alone; and when it has no [values] at all, the statuses become the
    empty list. *)
Theorem last_status_field_wins (o o' : options) (before : list PyValue)
    (field : list (string * PyValue)) :
  scan_fields o before = Ok o' ->
  dict_lookup "name" field = Some (PStr "bug_status") ->
  (forall names,
     value_names (PDict field) = Ok names ->
     scan_fields o (before ++ [PDict field]) =
     Ok {| status_options := names;
           priority_options := priority_options o';
           severity_options := severity_options o' |}) /\
  (dict_lookup "values" field = None ->
   scan_fields o (before ++ [PDict field]) =
   Ok {| status_options := PList [];
         priority_options := priority_options o';
         severity_options := severity_options o' |}).
Proof.
  intros Hbefore Hname.
  assert (Hlast : forall names,
            value_names (PDict field) = Ok names ->
            scan_fields o (before ++ [PDict field]) =
            Ok {| status_options := names;
                  priority_options := priority_options o';
                  severity_options := severity_options o' |}).
  { intros names Hnames. rewrite scan_fields_app, Hbefore. simpl.
    unfold scan_field, mbind, result_bind_inst, result_bind, subscript.
    rewrite Hname. simpl. by rewrite Hnames. }
  split; [done|].
  intros Hvalues. apply Hlast.
  unfold value_names, method_get. by rewrite Hvalues.
Qed.

(** ** More on the validators *)

Lemma rstrip_app (c : ascii) (p s : string) :
  rstrip c (p +:+ s) =
  match rstrip c s with
  | EmptyString => rstrip c p
  | r => p +:+ r
  end.
Proof.
  induction p as [|a p IH].
  - rewrite append_nil. by destruct (rstrip c s).
  - rewrite append_cons. simpl. rewrite IH.
    destruct (rstrip c s) as [|b r]; [done|].
    rewrite append_cons. by destruct p.
Qed.

Lemma rstrip_idem (c : ascii) (s : string) : rstrip c (rstrip c s) = rstrip c s.
Proof.
  induction s as [|a s IH]; simpl; [done|].
  destruct (rstrip c s) as [|b r] eqn:Hr.
  - destruct (Ascii.eqb a c) eqn:Hac; simpl; [done|]. by rewrite Hac.
  - change (rstrip c (String a (String b r))) with
      (match rstrip c (String b r) with
       | EmptyString => if Ascii.eqb a c then EmptyString else String a EmptyString
       | r' => String a r'
       end).
    by rewrite IH.
Qed.

(** An accepted URL is stored in a form that the validator accepts again
    and leaves as it is, with one exception: a URL that is nothing but
    the scheme and slashes, such as [http://], is accepted too, and what
    is stored for it, [http:] or [https:], the validator itself would
    reject. *)
Theorem stored_url_revalidates (v u : string) :
  validate_url v = Ok u ->
  validate_url u = Ok u \/
  ((u = "http:" \/ u = "https:") /\
   validate_url u = Raise (ValueError "Bugzilla URL must start with http:// or https://")).
Proof.
  assert (Hkeep : forall scheme rest b r,
            rstrip "/" rest = String b r ->
            rstrip "/" (scheme +:+ String b r) = scheme +:+ String b r).
  { intros scheme rest b r Hr. by rewrite rstrip_app, <- Hr, rstrip_idem, Hr. }
  unfold validate_url at 1.
  destruct (startswith v "http://") eqn:Hhttp; simpl.
  - intros [= <-]. apply startswith_spec in Hhttp as [rest ->].
    rewrite rstrip_app. destruct (rstrip "/" rest) as [|b r] eqn:Hr.
    + right. split; [by left | reflexivity].
    + left. unfold validate_url.
      assert (startswith ("http://" +:+ String b r) "http://" = true) as ->.
      { apply startswith_spec. by eexists. }
      by rewrite (Hkeep _ _ _ _ Hr).
  - destruct (startswith v "https://") eqn:Hhttps; simpl; [|done].
    intros [= <-]. apply startswith_spec in Hhttps as [rest ->].
    rewrite rstrip_app. destruct (rstrip "/" rest) as [|b r] eqn:Hr.
    + right. split; [by right | reflexivity].
    + left. unfold validate_url.
      assert (startswith ("https://" +:+ String b r) "https://" = true) as ->.
      { apply startswith_spec. by eexists. }
      by rewrite orb_true_r, (Hkeep _ _ _ _ Hr).
Qed.

Lemma stored_url_revalidates_witness :
  validate_url "http:" = Ok "http:" \/
  (("http:" = "http:" \/ "http:" = "https:") /\
   validate_url "http:" =
     Raise (ValueError "Bugzilla URL must start with http:// or https://")).
Proof. exact (stored_url_revalidates "http://" "http:" eq_refl). Defined.

(** ** The configuration in use *)

Lemma append_length (s t : string) :
  String.length (s +:+ t) = (String.length s + String.length t)%nat.
Proof. induction s as [|a s IH]; simpl; [done | by rewrite IH]. Qed.

Lemma append_assoc (s t u : string) : s +:+ (t +:+ u) = (s +:+ t) +:+ u.
Proof. induction s as [|a s IH]; [done|]. by rewrite !append_cons, IH. Qed.

Lemma append_inj_r (s1 s2 t : string) : s1 +:+ t = s2 +:+ t -> s1 = s2.
Proof.
  revert s2. induction s1 as [|a s1 IH]; intros [|b s2] H.
  - done.
  - apply (f_equal String.length) in H.
    rewrite append_nil, append_cons in H. simpl in H.
    rewrite append_length in H. lia.
  - apply (f_equal String.length) in H.
    rewrite append_nil, append_cons in H. simpl in H.
    rewrite append_length in H. lia.
  - rewrite !append_cons in H. injection H as -> H. f_equal. by apply IH.
Qed.

(** ** The further properties on concrete inputs *)

Lemma query_bugs_page_witness :
  exists record,
    convert_bug_to_dict Fixtures.sample_bug = Ok record /\
    query_bugs Fixtures.tracker no_args Fixtures.fresh =
    (Ok (PDict [
       ("total_results", PInt 1);
       ("offset", PInt 0);
       ("limit", PInt 20);
       ("query_parameters", PDict [("limit", PInt 20); ("offset", PInt 0)]);
       ("bugs", PList [record])
     ]),
     World ∅ [CallBuildQuery (PDict [("limit", PInt 20); ("offset", PInt 0)]);
              CallQuery (PDict [("limit", PInt 20); ("offset", PInt 0)])]).
Proof.
  eexists. split; [reflexivity|].
  apply (query_bugs_page Fixtures.tracker no_args Fixtures.fresh
           (PDict [("limit", PInt 20); ("offset", PInt 0)])
           [Fixtures.sample_bug]); [reflexivity..|].
  repeat constructor.
Defined.

Lemma malformed_products_reported_witness :
  get_search_options Fixtures.loads Fixtures.nameless Fixtures.fresh =
  (Ok (PDict [("error", PStr "Failed to get search options: 'name'")]),
   World ∅ [FileExists cache_path; CallGetProducts]).
Proof.
  exact (malformed_products_reported Fixtures.loads Fixtures.nameless
           Fixtures.fresh _ (KeyError "'name'") eq_refl eq_refl eq_refl eq_refl).
Defined.

Lemma cache_never_refreshed_witness :
  let w_2 := after_calls Fixtures.loads Fixtures.tracker 2 Fixtures.foo_cached in
  fst (get_search_options Fixtures.loads Fixtures.tracker w_2) =
    Ok (PDict [("foo", PInt 1)]) /\
  fs (snd (get_search_options Fixtures.loads Fixtures.tracker w_2)) =
    {[ cache_path := Fixtures.foo_text ]} /\
  List.filter is_adapter_call
    (log (snd (get_search_options Fixtures.loads Fixtures.tracker w_2))) = [].
Proof.
  exact (cache_never_refreshed Fixtures.loads Fixtures.tracker
           Fixtures.foo_cached Fixtures.foo_text 2 eq_refl eq_refl).
Defined.

Lemma successful_derivation_poisons_cache_witness :
  let w_2 := after_calls Fixtures.loads Fixtures.tracker 2 Fixtures.fresh in
  fs w_2 !! cache_path = Some "" /\
  fst (get_search_options Fixtures.loads Fixtures.tracker w_2) =
    Raise (Fixtures.JSONDecodeError "Expecting value: line 1 column 1 (char 0)") /\
  List.filter is_adapter_call
    (log (snd (get_search_options Fixtures.loads Fixtures.tracker w_2))) =
  [CallGetProducts; CallGetBugFields].
Proof.
  exact (successful_derivation_poisons_cache Fixtures.loads Fixtures.tracker
           Fixtures.fresh _ 1 eq_refl eq_refl eq_refl).
Defined.

Lemma other_fields_ignored_witness :
  let o := {| status_options := PList []; priority_options := PList [];
              severity_options := PList [] |} in
  let status := PDict [("name", PStr "bug_status");
                       ("values", PList [Fixtures.named "NEW"])] in
  scan_fields o ([status] ++ PDict [("name", PStr "op_sys")] :: []) =
  scan_fields o ([status] ++ []).
Proof.
  apply (other_fields_ignored _ _ [] [("name", PStr "op_sys")] "op_sys" eq_refl);
    discriminate.
Defined.

Lemma last_status_field_wins_witness :
  let o := {| status_options := PList []; priority_options := PList [];
              severity_options := PList [] |} in
  let first := PDict [("name", PStr "bug_status");
                      ("values", PList [Fixtures.named "NEW"])] in
  scan_fields o ([first] ++ [PDict [("name", PStr "bug_status")]]) =
  Ok {| status_options := PList []; priority_options := PList [];
        severity_options := PList [] |}.
Proof.
  exact (proj2 (last_status_field_wins
                  {| status_options := PList []; priority_options := PList [];
                     severity_options := PList [] |}
                  {| status_options := PList [PStr "NEW"];
                     priority_options := PList [];
                     severity_options := PList [] |}
                  [PDict [("name", PStr "bug_status");
                          ("values", PList [Fixtures.named "NEW"])]]
                  [("name", PStr "bug_status")] eq_refl eq_refl) eq_refl).
Defined.

(** ** Construction of the configuration *)

Ltac destruct_fields :=
  repeat match goal with
         | |- context [field ?x ?d ?c ?v] => destruct (field x d c v)
         end.

(** A field that fails makes construction fail, with the field's name
    among the errors. *)
Ltac field_fails :=
  destruct_fields; simpl; eexists; (split; [reflexivity|]); simpl; auto 10.

(** What [new] builds, field by field. *)
Lemma new_built (upper : string -> string) (to_int : string -> result Z)
    (to_bool : string -> result bool) (src : source) (c : BugzillaConfig) :
  new upper to_int to_bool src = Built c <->
  exists u p t r l d,
    field (src_bugzilla_url src) None Ok validate_url = Ok u /\
    field (src_server_port src) (Some 8080) to_int validate_port = Ok p /\
    field (src_request_timeout src) (Some 30) to_int Ok = Ok t /\
    field (src_max_retries src) (Some 3) to_int Ok = Ok r /\
    field (src_log_level src) (Some "INFO") Ok (validate_log_level upper) = Ok l /\
    field (src_debug_mode src) (Some false) to_bool Ok = Ok d /\
    c = {| bugzilla_url := u;
           bugzilla_api_key := src_bugzilla_api_key src;
           bugzilla_username := src_bugzilla_username src;
           bugzilla_password := src_bugzilla_password src;
           server_host := default "localhost" (src_server_host src);
           server_port := p;
           request_timeout := t;
           max_retries := r;
           log_level := l;
           debug_mode := d |}.
Proof.
  unfold new.
  destruct (field (src_bugzilla_url src) _ _ _) as [u|];
    [|split; [done | by intros (? & ? & ? & ? & ? & ? & ? & _)]].
  destruct (field (src_server_port src) _ _ _) as [p|];
    [|split; [done | by intros (? & ? & ? & ? & ? & ? & _ & ? & _)]].
  destruct (field (src_request_timeout src) _ _ _) as [t|];
    [|split; [done | by intros (? & ? & ? & ? & ? & ? & _ & _ & ? & _)]].
  destruct (field (src_max_retries src) _ _ _) as [r|];
    [|split; [done | by intros (? & ? & ? & ? & ? & ? & _ & _ & _ & ? & _)]].
  destruct (field (src_log_level src) _ _ _) as [l|];
    [|split; [done | by intros (? & ? & ? & ? & ? & ? & _ & _ & _ & _ & ? & _)]].
  destruct (field (src_debug_mode src) _ _ _) as [d|];
    [|split; [done | by intros (? & ? & ? & ? & ? & ? & _ & _ & _ & _ & _ & ? & _)]].
  split.
  - intros [= <-]. by exists u, p, t, r, l, d.
  - intros (? & ? & ? & ? & ? & ? & [= <-] & [= <-] & [= <-] & [= <-] & [= <-]
            & [= <-] & ->). done.
Qed.

(** C9, as stated, fails on the log level: the level is compared after
    [upper()], so a level that is not in the enum as written, such as
    [debug], is accepted, and stored in upper case.  This holds for every
    [upper] that does to ASCII text what [str.upper] does, and whatever
    the conversions of the other settings are. *)
Lemma lowercase_level_accepted :
  ~ In "debug" valid_levels /\
  forall upper to_int to_bool,
    upper_on_ascii upper ->
    exists c,
      new upper to_int to_bool
          (Fixtures.env (Some "https://bugzilla.example.org") None (Some "debug")) =
        Built c /\
      log_level c = "DEBUG".
Proof.
  split.
  - simpl. intros H. repeat (destruct H as [H|H]; [discriminate|]). exact H.
  - intros upper to_int to_bool Hupper.
    eexists. unfold new, validate_log_level; simpl.
    rewrite (Hupper "debug" eq_refl). simpl. split; reflexivity.
Qed.

(** C9, amended.  Construction fails, with an error under the field's
    name, for every URL that starts with neither [http://] nor
    [https://], for every port outside 1..65535, and for every log level
    whose upper-case form, that is [v.upper()], is outside the enum.  When
    construction succeeds, the stored URL is the supplied one without its
    trailing slashes: only slashes were taken off, and none is left at
    the end.  [upper] is any function, so [str.upper] on text of any
    script is covered; the port is the integer the supplied text is
    converted to. *)
Theorem config_rejection (upper : string -> string) (to_int : string -> result Z)
    (to_bool : string -> result bool) (src : source) :
  (forall url,
     src_bugzilla_url src = Some url ->
     (forall rest, url <> "http://" +:+ rest) ->
     (forall rest, url <> "https://" +:+ rest) ->
     exists errors, new upper to_int to_bool src = ValidationError errors /\
                    In "bugzilla_url" (map fst errors)) /\
  (forall text port,
     src_server_port src = Some text ->
     to_int text = Ok port ->
     ~ (1 <= port <= 65535) ->
     exists errors, new upper to_int to_bool src = ValidationError errors /\
                    In "server_port" (map fst errors)) /\
  (forall level,
     src_log_level src = Some level ->
     ~ In (upper level) valid_levels ->
     exists errors, new upper to_int to_bool src = ValidationError errors /\
                    In "log_level" (map fst errors)) /\
  (forall c,
     new upper to_int to_bool src = Built c ->
     exists url tail,
       src_bugzilla_url src = Some url /\
       bugzilla_url c = rstrip "/" url /\
       url = bugzilla_url c +:+ tail /\
       only "/" tail = true /\
       forall t, bugzilla_url c <> t +:+ "/").
Proof.
  split; [|split; [|split]].
  - intros url Hsrc Hhttp Hhttps. unfold new. rewrite Hsrc.
    assert (field (Some url) None Ok validate_url =
            Raise (ValueError "Bugzilla URL must start with http:// or https://"))
      as ->.
    { simpl. unfold validate_url.
      assert (startswith url "http://" = false) as ->.
      { apply not_true_is_false. rewrite startswith_spec. intros [rest ?].
        by apply (Hhttp rest). }
      assert (startswith url "https://" = false) as ->.
      { apply not_true_is_false. rewrite startswith_spec. intros [rest ?].
        by apply (Hhttps rest). }
      done. }
    field_fails.
  - intros text port Hsrc Hconv Hport. unfold new. rewrite Hsrc.
    assert (field (Some text) (Some 8080) to_int validate_port =
            Raise (ValueError "Port must be between 1 and 65535")) as ->.
    { simpl. rewrite Hconv. simpl. unfold validate_port.
      assert ((1 <=? port) && (port <=? 65535) = false) as ->; [|done].
      apply not_true_is_false. rewrite andb_true_iff, !Z.leb_le. lia. }
    field_fails.
  - intros level Hsrc Hlevel. unfold new. rewrite Hsrc.
    assert (exists e, field (Some level) (Some "INFO") Ok (validate_log_level upper) =
                      Raise e) as [e ->].
    { simpl. unfold validate_log_level.
      assert (in_levels (upper level) = false) as ->; [|by eexists].
      apply not_true_is_false. by rewrite in_levels_spec. }
    field_fails.
  - intros c Hc. apply new_built in Hc
      as (u & p & t & r & l & d & Hu & _ & _ & _ & _ & _ & ->). simpl.
    destruct (src_bugzilla_url src) as [url|]; simpl in Hu; [|done].
    unfold validate_url in Hu. destruct (negb _); [done|].
    injection Hu as <-.
    destruct (rstrip_tail "/" url) as (tail & Hurl & Htail).
    exists url, tail. repeat split; try done.
    intros t'. apply rstrip_no_trailing.
Qed.

(** The amended C9 on the inputs of the spec: a URL without a scheme,
    the ports 0 and 70000, the level [TRACE]; and an accepted URL with
    three trailing slashes. *)
Lemma config_rejection_witness :
  let new := new ascii_upper Fixtures.to_int Fixtures.to_bool in
  (exists errors,
     new (Fixtures.env (Some "bugzilla.example.org") None None) =
       ValidationError errors /\ In "bugzilla_url" (map fst errors)) /\
  (exists errors,
     new (Fixtures.env (Some "https://bugzilla.example.org") (Some "0") None) =
       ValidationError errors /\ In "server_port" (map fst errors)) /\
  (exists errors,
     new (Fixtures.env (Some "https://bugzilla.example.org") (Some "70000") None) =
       ValidationError errors /\ In "server_port" (map fst errors)) /\
  (exists errors,
     new (Fixtures.env (Some "https://bugzilla.example.org") None (Some "TRACE")) =
       ValidationError errors /\ In "log_level" (map fst errors)) /\
  (exists c,
     new (Fixtures.env (Some "https://bugzilla.example.org///") None None) =
       Built c /\ bugzilla_url c = "https://bugzilla.example.org").
Proof.
  cbv zeta. repeat split.
  - apply (proj1 (config_rejection ascii_upper Fixtures.to_int Fixtures.to_bool
                    (Fixtures.env (Some "bugzilla.example.org") None None))
             "bugzilla.example.org" eq_refl);
      intros rest; rewrite !append_cons; discriminate.
  - apply (proj1 (proj2 (config_rejection ascii_upper Fixtures.to_int
                    Fixtures.to_bool
                    (Fixtures.env (Some "https://bugzilla.example.org")
                       (Some "0") None))) "0" 0 eq_refl eq_refl). lia.
  - apply (proj1 (proj2 (config_rejection ascii_upper Fixtures.to_int
                    Fixtures.to_bool
                    (Fixtures.env (Some "https://bugzilla.example.org")
                       (Some "70000") None))) "70000" 70000 eq_refl eq_refl). lia.
  - apply (proj1 (proj2 (proj2 (config_rejection ascii_upper Fixtures.to_int
                    Fixtures.to_bool
                    (Fixtures.env (Some "https://bugzilla.example.org")
                       None (Some "TRACE"))))) "TRACE" eq_refl).
    simpl. intros H. repeat (destruct H as [H|H]; [discriminate|]). exact H.
  - eexists. split; [reflexivity|].
    destruct (proj2 (proj2 (proj2 (config_rejection ascii_upper Fixtures.to_int
                Fixtures.to_bool
                (Fixtures.env (Some "https://bugzilla.example.org///")
                   None None)))) _ eq_refl)
      as (url & tail & [= <-] & Hstored & _).
    exact Hstored.
Defined.

(** ** The first failure of a page *)

Lemma result_mapM_first_failure {A B} (f : A -> result B)
    (good : list A) (x : A) (rest : list A) (e : exn) :
  Forall (fun y => exists b, f y = Ok b) good ->
  f x = Raise e ->
  result_mapM f (good ++ x :: rest)%list = Raise e.
Proof.
  intros Hgood Hx. induction Hgood as [|y good [b Hy] _ IH]; simpl.
  - by rewrite Hx.
  - by rewrite Hy, IH.
Qed.

(** All or nothing, and the first failure counts.  When the bugs of the
    page can be normalised up to some bug, and that bug cannot, the
    response has no [bugs] at all: it is the error payload with the
    message of that first failing bug, whatever the bugs after it would
    do. *)
Theorem query_bugs_all_or_nothing (bz : Bugzilla) (a : query_args) (w : world)
    (params : PyValue) (good : list Bug) (bug : Bug) (rest : list Bug) (e : exn) :
  logged_in bz = true ->
  build_query bz (PDict (query_params a)) = Ok params ->
  query bz params = Ok (good ++ bug :: rest)%list ->
  Forall (fun b => exists record, convert_bug_to_dict b = Ok record) good ->
  convert_bug_to_dict bug = Raise e ->
  query_bugs bz a w =
  (Ok (PDict [("error", PStr ("Query failed: " +:+ exn_str e));
              ("query_parameters", PDict (query_params a))]),
   World (fs w) (log w ++ [CallBuildQuery (PDict (query_params a));
                           CallQuery params])).
Proof.
  intros Hin Hb Hq Hgood He.
  rewrite query_bugs_unfold by done. simpl. rewrite Hb, Hq. simpl.
  by rewrite (result_mapM_first_failure _ _ _ _ _ Hgood He).
Qed.

Lemma query_bugs_all_or_nothing_witness :
  convert_bug_to_dict Fixtures.blank_bug =
    Raise (AttributeError "'Bug' object has no attribute 'product'") /\
  query_bugs Fixtures.flaky no_args Fixtures.fresh =
  (Ok (PDict [("error", PStr "Query failed: 'email'");
              ("query_parameters", PDict [("limit", PInt 20); ("offset", PInt 0)])]),
   World ∅ [CallBuildQuery (PDict [("limit", PInt 20); ("offset", PInt 0)]);
            CallQuery (PDict [("limit", PInt 20); ("offset", PInt 0)])]).
Proof.
  split; [reflexivity|].
  apply (query_bugs_all_or_nothing Fixtures.flaky no_args Fixtures.fresh
           (PDict [("limit", PInt 20); ("offset", PInt 0)])
           [Fixtures.sample_bug] Fixtures.anonymous_bug [Fixtures.blank_bug]
           (KeyError "'email'")); [reflexivity..| |reflexivity].
  repeat constructor. eexists. reflexivity.
Defined.

(** ** The log level *)

Lemma level_ascii (l : string) :
  In l valid_levels -> is_ascii l = true /\ ascii_upper l = l.
Proof.
  simpl. intros H.
  repeat (destruct H as [<-|H]; [by split|]). contradiction.
Qed.

(** The log level is normalised, for every [upper] that does to ASCII
    text what [str.upper] does.  An accepted level is stored as
    [v.upper()], which is one of the five names, and the stored level is
    accepted again and stays as it is.  And every ASCII spelling of one of
    the five names, in whatever mix of cases, is accepted and stored as
    the name. *)
Theorem log_level_normalised (upper : string -> string) :
  upper_on_ascii upper ->
  (forall v l, validate_log_level upper v = Ok l ->
     l = upper v /\ In l valid_levels /\ validate_log_level upper l = Ok l) /\
  (forall v, is_ascii v = true -> In (ascii_upper v) valid_levels ->
     validate_log_level upper v = Ok (ascii_upper v)).
Proof.
  intros Hupper. split.
  - intros v l. unfold validate_log_level at 1.
    destruct (in_levels (upper v)) eqn:Hin; simpl; [|done].
    intros [= <-]. apply in_levels_spec in Hin.
    split; [done|]. split; [done|].
    destruct (level_ascii _ Hin) as [Hascii Hsame].
    unfold validate_log_level. rewrite (Hupper _ Hascii), Hsame.
    apply in_levels_spec in Hin. by rewrite Hin.
  - intros v Hascii Hin. unfold validate_log_level.
    rewrite (Hupper _ Hascii). apply in_levels_spec in Hin. by rewrite Hin.
Qed.

Lemma ascii_upper_on_ascii : upper_on_ascii ascii_upper.
Proof. by intros s _. Qed.

Lemma log_level_normalised_witness :
  validate_log_level ascii_upper "Warning" = Ok "WARNING" /\
  validate_log_level ascii_upper "WARNING" = Ok "WARNING".
Proof.
  split.
  - exact (proj2 (log_level_normalised ascii_upper ascii_upper_on_ascii)
             "Warning" eq_refl (or_intror (or_intror (or_introl eq_refl)))).
  - exact (proj2 (proj2 (proj1 (log_level_normalised ascii_upper
                                  ascii_upper_on_ascii)
                           "Warning" "WARNING" eq_refl))).
Defined.

(** ** Construction, both ways *)

Lemma url_field_ok (x : option string) :
  (exists u, field x None Ok validate_url = Ok u) <->
  exists url, x = Some url /\
    ((exists rest, url = "http://" +:+ rest) \/
     (exists rest, url = "https://" +:+ rest)).
Proof.
  destruct x as [url|]; simpl.
  - unfold validate_url.
    destruct (startswith url "http://") eqn:H1;
      [|destruct (startswith url "https://") eqn:H2]; simpl.
    + split; [|by eexists]. intros _. exists url. split; [done|].
      left. by apply startswith_spec.
    + split; [|by eexists]. intros _. exists url. split; [done|].
      right. by apply startswith_spec.
    + split; [by intros [u ?]|]. intros (url' & [= <-] & [H|H]);
        apply startswith_spec in H; congruence.
  - split; [by intros [u ?] | by intros (url & ? & _)].
Qed.

Lemma port_field_ok (to_int : string -> result Z) (x : option string) :
  (exists p, field x (Some 8080) to_int validate_port = Ok p) <->
  forall text, x = Some text ->
    exists port, to_int text = Ok port /\ 1 <= port <= 65535.
Proof.
  destruct x as [text|]; simpl.
  - destruct (to_int text) as [port|e] eqn:Hconv; simpl.
    + unfold validate_port.
      destruct ((1 <=? port) && (port <=? 65535)) eqn:E; simpl.
      * apply andb_true_iff in E as [H1 H2]. apply Z.leb_le in H1, H2.
        split; [|by eexists]. intros _ ? [= <-]. exists port. split; [done | lia].
      * split; [by intros [p ?]|]. intros H.
        destruct (H text eq_refl) as (port' & Hport' & Hport).
        assert (port' = port) as -> by congruence.
        apply andb_false_iff in E as [E|E]; apply Z.leb_gt in E; lia.
    + split; [by intros [p ?]|]. intros H.
      destruct (H text eq_refl) as (port & ? & _). congruence.
  - split; [done | by eexists].
Qed.

Lemma converted_field_ok {A} (convert : string -> result A) (d : A)
    (x : option string) :
  (exists v, field x (Some d) convert Ok = Ok v) <->
  forall text, x = Some text -> exists v, convert text = Ok v.
Proof.
  destruct x as [text|]; simpl.
  - destruct (convert text) as [v|e] eqn:Hconv; simpl.
    + split; [|by eexists]. intros _ ? [= <-]. by exists v.
    + split; [by intros [v ?]|]. intros H.
      destruct (H text eq_refl) as (v & ?). congruence.
  - split; [done | by eexists].
Qed.

Lemma level_field_ok (upper : string -> string) (x : option string) :
  (exists l, field x (Some "INFO") Ok (validate_log_level upper) = Ok l) <->
  forall level, x = Some level -> In (upper level) valid_levels.
Proof.
  destruct x as [level|]; simpl.
  - unfold validate_log_level.
    destruct (in_levels (upper level)) eqn:E; simpl.
    + apply in_levels_spec in E. split; [|by eexists]. by intros _ ? [= <-].
    + split; [by intros [l ?]|]. intros H. specialize (H level eq_refl).
      apply in_levels_spec in H. congruence.
  - split; [done | by eexists].
Qed.

(** Construction from the texts the environment supplies for the ten
    settings succeeds exactly when: the URL is supplied and starts with
    [http://] or [https://]; the port, if supplied, converts to an integer
    in 1..65535; the timeout and the retries, if supplied, convert to an
    integer, of whatever size or sign; the log level, if supplied, has
    [v.upper()] among the five names; and the debug flag, if supplied,
    converts to a boolean. *)
Theorem construction_succeeds_iff (upper : string -> string)
    (to_int : string -> result Z) (to_bool : string -> result bool)
    (src : source) :
  (exists c, new upper to_int to_bool src = Built c) <->
  (exists url, src_bugzilla_url src = Some url /\
     ((exists rest, url = "http://" +:+ rest) \/
      (exists rest, url = "https://" +:+ rest))) /\
  (forall text, src_server_port src = Some text ->
     exists port, to_int text = Ok port /\ 1 <= port <= 65535) /\
  (forall text, src_request_timeout src = Some text ->
     exists n, to_int text = Ok n) /\
  (forall text, src_max_retries src = Some text ->
     exists n, to_int text = Ok n) /\
  (forall level, src_log_level src = Some level ->
     In (upper level) valid_levels) /\
  (forall text, src_debug_mode src = Some text ->
     exists b, to_bool text = Ok b).
Proof.
  rewrite <- url_field_ok, <- port_field_ok, <- !converted_field_ok,
    <- (level_field_ok upper).
  split.
  - intros [c Hc]. apply new_built in Hc
      as (u & p & t & r & l & d & Hu & Hp & Ht & Hr & Hl & Hd & _).
    repeat split; by eexists.
  - intros ([u Hu] & [p Hp] & [t Ht] & [r Hr] & [l Hl] & [d Hd]).
    eexists. apply new_built. exists u, p, t, r, l, d. by repeat split.
Qed.

(** Every configuration that construction builds has a port in 1..65535
    and a log level that is one of the five names, whether the
    environment supplied them or the defaults stand in, and whatever
    [upper] does to text that is not ASCII. *)
Theorem built_config_invariant (upper : string -> string)
    (to_int : string -> result Z) (to_bool : string -> result bool)
    (src : source) (c : BugzillaConfig) :
  new upper to_int to_bool src = Built c ->
  1 <= server_port c <= 65535 /\ In (log_level c) valid_levels.
Proof.
  intros Hc. apply new_built in Hc
    as (u & p & t & r & l & d & _ & Hp & _ & _ & Hl & _ & ->). simpl.
  split.
  - revert Hp. unfold field, validate_port.
    destruct (src_server_port src) as [text|]; simpl.
    + destruct (to_int text) as [port|]; simpl; [|done].
      destruct ((1 <=? port) && (port <=? 65535)) eqn:E; simpl; [|done].
      intros [= <-]. apply andb_true_iff in E as [H1 H2].
      apply Z.leb_le in H1, H2. by split.
    + intros [= <-]. lia.
  - revert Hl. unfold field, validate_log_level.
    destruct (src_log_level src) as [level|]; simpl.
    + destruct (in_levels (upper level)) eqn:E; simpl; [|done].
      intros [= <-]. by apply in_levels_spec in E.
    + intros [= <-]. simpl. auto.
Qed.

Lemma built_config_invariant_witness :
  exists c,
    new ascii_upper Fixtures.to_int Fixtures.to_bool
        (Fixtures.env (Some "https://bugzilla.example.org/") (Some "8443")
           (Some "warning")) = Built c /\
    server_port c = 8443 /\ log_level c = "WARNING" /\
    1 <= server_port c <= 65535 /\ In (log_level c) valid_levels.
Proof.
  eexists. split; [reflexivity|]. split; [reflexivity|]. split; [reflexivity|].
  exact (built_config_invariant ascii_upper Fixtures.to_int Fixtures.to_bool
           (Fixtures.env (Some "https://bugzilla.example.org/") (Some "8443")
              (Some "warning")) _ eq_refl).
Defined.

(** ** The configuration in use *)

(** The address [timezone] asks is well formed for every configuration
    that construction builds: it is the supplied URL without its trailing
    slashes, then [/rest/timezone], so no doubled slash stands before
    [rest].  What [requests.get] raises, [timezone] raises. *)
Theorem timezone_address (upper : string -> string)
    (to_int : string -> result Z) (to_bool : string -> result bool)
    (src : source) (c : BugzillaConfig) :
  new upper to_int to_bool src = Built c ->
  (exists url, src_bugzilla_url src = Some url /\
     timezone_url (bugzilla_url c) = rstrip "/" url +:+ "/rest/timezone") /\
  (forall t, timezone_url (bugzilla_url c) <> t +:+ "//rest/timezone") /\
  (forall requests_get e,
     requests_get (timezone_url (bugzilla_url c)) = Raise e ->
     timezone requests_get (bugzilla_url c) = Raise e).
Proof.
  intros Hnew.
  assert (Hurl : exists url, src_bugzilla_url src = Some url /\
                             bugzilla_url c = rstrip "/" url).
  { apply new_built in Hnew
      as (u & p & t & r & l & d & Hu & _ & _ & _ & _ & _ & ->). simpl.
    destruct (src_bugzilla_url src) as [url|]; simpl in Hu; [|done].
    unfold validate_url in Hu. destruct (negb _); [done|].
    injection Hu as <-. by exists url. }
  destruct Hurl as (url & Hsrc & Hstored).
  split; [|split].
  - exists url. split; [done|]. unfold timezone_url. by rewrite Hstored.
  - intros t. unfold timezone_url.
    change (t +:+ "//rest/timezone") with (t +:+ ("/" +:+ "/rest/timezone")).
    rewrite append_assoc. intros H. apply append_inj_r in H.
    rewrite Hstored in H. by apply rstrip_no_trailing in H.
  - intros requests_get e Hget. unfold timezone. by rewrite Hget.
Qed.

Lemma timezone_address_witness :
  exists c,
    new ascii_upper Fixtures.to_int Fixtures.to_bool
        (Fixtures.env (Some "https://bugzilla.example.org//") None None) =
      Built c /\
    timezone_url (bugzilla_url c) = "https://bugzilla.example.org/rest/timezone" /\
    timezone Fixtures.refusing (bugzilla_url c) = Raise Fixtures.ConnectionError.
Proof.
  eexists. split; [reflexivity|].
  destruct (timezone_address ascii_upper Fixtures.to_int Fixtures.to_bool
              (Fixtures.env (Some "https://bugzilla.example.org//") None None)
              _ eq_refl) as ((url & [= <-] & Hurl) & _ & Hraise).
  exact (conj Hurl (Hraise Fixtures.refusing Fixtures.ConnectionError eq_refl)).
Defined.
